(** * navarchos: the NodeRollout status merge, the admission gate and pod
      classification

    A shallow embedding of [pkg/controller/noderollout/status/status.go]
    together with the two handler functions of the NodeReplacement controller
    that the handler test exercises ([shouldProcess], [processPods]).

    Go values are embedded as follows.
    - [string] is [string]; [int] is [Z].
    - an [error] is [option string]: [None] is nil, [Some s] an error whose
      [Error()] text is [s].
    - a pointer used as an optional value ([*NodeRolloutPhase],
      [*metav1.Time]) is an [option].
    - the condition slice is a [Slice.t]: [None] is the nil slice, [Some l] a
      non-nil slice holding [l]; the code only ever builds fresh condition
      slices.
    - the string slices of the status and of the result are slice headers of
      a memory model, the class [GoSlice].  [status.go] is embedded once,
      over any such model, and read at two instances: [ValueSlice], where a
      slice is its contents and nothing is shared, and [Flat.FlatSlice],
      where a header is (pointer, length, capacity) over a flat memory of
      cells and [append] writes into spare capacity as Go does.
    - [metav1.Now()] reads a wall clock carried by the [World]; every call
      takes one tick.
    - [client.Client] is the cluster store: the [World] holds the persisted
      object, the log of objects handed to [Update], and the store's verdict
      on each update. *)

From Stdlib Require Import List String Ascii ZArith Lia Bool Arith.
Import ListNotations.
Local Open Scope string_scope.
Local Open Scope list_scope.

(** ** Go primitives *)

Definition error := option string.

Definition Time := Z.

Definition isSome {A : Type} (o : option A) : bool :=
  match o with
  | Some _ => true
  | None => false
  end.

Module Slice.

Definition t (A : Type) := option (list A).

Definition elems {A : Type} (s : t A) : list A :=
  match s with
  | Some l => l
  | None => []
  end.

Definition isNil {A : Type} (s : t A) : bool :=
  match s with
  | Some _ => false
  | None => true
  end.

Definition len {A : Type} (s : t A) : nat := List.length (elems s).

(** [append(s, x)]: the result is never nil. *)
Definition append {A : Type} (s : t A) (x : A) : t A :=
  Some (elems s ++ [x]).

End Slice.

(** ** API types used by the status package

    The declarations live in [pkg/apis/navarchos/v1alpha1]; the records
    below carry the fields that [status.go] and its tests read or write.
    [S] is the type of a string slice header. *)

Inductive ConditionStatus := ConditionTrue | ConditionFalse | ConditionUnknown.

Definition ConditionStatus_eqb (a b : ConditionStatus) : bool :=
  match a, b with
  | ConditionTrue, ConditionTrue => true
  | ConditionFalse, ConditionFalse => true
  | ConditionUnknown, ConditionUnknown => true
  | _, _ => false
  end.

(** Modelled from the spec: the two condition type constants of the API
    package (the spec's condition types [Created] and [InProgress]); only
    their being two fixed strings matters below. *)
Definition ReplacementsCreatedType : string := "ReplacementsCreated".
Definition ReplacementsInProgressType : string := "ReplacementsInProgress".

Module NodeRolloutCondition.
Record t := mk {
  Type_ : string;
  Status : ConditionStatus;
  LastUpdateTime : Time;
  LastTransitionTime : Time;
  Reason : string;
  Message : string
}.
End NodeRolloutCondition.

Module NRC := NodeRolloutCondition.

Module NodeRolloutStatus.
Record t (S : Type) := mk {
  Phase : string;
  ReplacementsCreated : S;
  ReplacementsCreatedCount : Z;
  ReplacementsCompleted : S;
  ReplacementsCompletedCount : Z;
  ReplacementsFailed : S;
  ReplacementsFailedCount : Z;
  CompletionTimestamp : option Time;
  Conditions : Slice.t NRC.t
}.
Arguments mk {S}.
Arguments Phase {S}.
Arguments ReplacementsCreated {S}.
Arguments ReplacementsCreatedCount {S}.
Arguments ReplacementsCompleted {S}.
Arguments ReplacementsCompletedCount {S}.
Arguments ReplacementsFailed {S}.
Arguments ReplacementsFailedCount {S}.
Arguments CompletionTimestamp {S}.
Arguments Conditions {S}.
End NodeRolloutStatus.

Module NRS := NodeRolloutStatus.

(** The [Result] of one reconcile pass, with the fields [UpdateStatus]
    reads. *)
Module Result.
Record t (S : Type) := mk {
  Phase : option string;
  ReplacementsCreated : S;
  ReplacementsCompleted : S;
  CompletionTimestamp : option Time;
  ReplacementsCreatedError : error;
  ReplacementsCreatedReason : string;
  ReplacementsInProgressError : error;
  ReplacementsInProgressReason : string
}.
Arguments mk {S}.
Arguments Phase {S}.
Arguments ReplacementsCreated {S}.
Arguments ReplacementsCompleted {S}.
Arguments CompletionTimestamp {S}.
Arguments ReplacementsCreatedError {S}.
Arguments ReplacementsCreatedReason {S}.
Arguments ReplacementsInProgressError {S}.
Arguments ReplacementsInProgressReason {S}.
End Result.

Module NodeRollout.
Record t (S : Type) := mk {
  Name : string;
  Status : NRS.t S
}.
Arguments mk {S}.
Arguments Name {S}.
Arguments Status {S}.
End NodeRollout.

(** Field assignments [status.F = v]. *)
Definition set_Phase {S : Type} (st : NRS.t S) (v : string) : NRS.t S :=
  NRS.mk v (NRS.ReplacementsCreated st) (NRS.ReplacementsCreatedCount st)
    (NRS.ReplacementsCompleted st) (NRS.ReplacementsCompletedCount st)
    (NRS.ReplacementsFailed st) (NRS.ReplacementsFailedCount st)
    (NRS.CompletionTimestamp st) (NRS.Conditions st).

Definition set_ReplacementsCreated {S : Type} (st : NRS.t S) (v : S)
  : NRS.t S :=
  NRS.mk (NRS.Phase st) v (NRS.ReplacementsCreatedCount st)
    (NRS.ReplacementsCompleted st) (NRS.ReplacementsCompletedCount st)
    (NRS.ReplacementsFailed st) (NRS.ReplacementsFailedCount st)
    (NRS.CompletionTimestamp st) (NRS.Conditions st).

Definition set_ReplacementsCreatedCount {S : Type} (st : NRS.t S) (v : Z)
  : NRS.t S :=
  NRS.mk (NRS.Phase st) (NRS.ReplacementsCreated st) v
    (NRS.ReplacementsCompleted st) (NRS.ReplacementsCompletedCount st)
    (NRS.ReplacementsFailed st) (NRS.ReplacementsFailedCount st)
    (NRS.CompletionTimestamp st) (NRS.Conditions st).

Definition set_ReplacementsCompleted {S : Type} (st : NRS.t S) (v : S)
  : NRS.t S :=
  NRS.mk (NRS.Phase st) (NRS.ReplacementsCreated st)
    (NRS.ReplacementsCreatedCount st) v (NRS.ReplacementsCompletedCount st)
    (NRS.ReplacementsFailed st) (NRS.ReplacementsFailedCount st)
    (NRS.CompletionTimestamp st) (NRS.Conditions st).

Definition set_ReplacementsCompletedCount {S : Type} (st : NRS.t S) (v : Z)
  : NRS.t S :=
  NRS.mk (NRS.Phase st) (NRS.ReplacementsCreated st)
    (NRS.ReplacementsCreatedCount st) (NRS.ReplacementsCompleted st) v
    (NRS.ReplacementsFailed st) (NRS.ReplacementsFailedCount st)
    (NRS.CompletionTimestamp st) (NRS.Conditions st).

Definition set_CompletionTimestamp {S : Type} (st : NRS.t S)
    (v : option Time) : NRS.t S :=
  NRS.mk (NRS.Phase st) (NRS.ReplacementsCreated st)
    (NRS.ReplacementsCreatedCount st) (NRS.ReplacementsCompleted st)
    (NRS.ReplacementsCompletedCount st)
    (NRS.ReplacementsFailed st) (NRS.ReplacementsFailedCount st) v
    (NRS.Conditions st).

Definition set_Conditions {S : Type} (st : NRS.t S) (v : Slice.t NRC.t)
  : NRS.t S :=
  NRS.mk (NRS.Phase st) (NRS.ReplacementsCreated st)
    (NRS.ReplacementsCreatedCount st) (NRS.ReplacementsCompleted st)
    (NRS.ReplacementsCompletedCount st)
    (NRS.ReplacementsFailed st) (NRS.ReplacementsFailedCount st)
    (NRS.CompletionTimestamp st) v.

Definition set_LastTransitionTime (c : NRC.t) (v : Time) : NRC.t :=
  NRC.mk (NRC.Type_ c) (NRC.Status c) (NRC.LastUpdateTime c) v
    (NRC.Reason c) (NRC.Message c).

Definition set_Status (c : NRC.t) (v : ConditionStatus) : NRC.t :=
  NRC.mk (NRC.Type_ c) v (NRC.LastUpdateTime c) (NRC.LastTransitionTime c)
    (NRC.Reason c) (NRC.Message c).

Definition set_Message (c : NRC.t) (v : string) : NRC.t :=
  NRC.mk (NRC.Type_ c) (NRC.Status c) (NRC.LastUpdateTime c)
    (NRC.LastTransitionTime c) (NRC.Reason c) v.

(** A status and an object as values: every string slice replaced by its
    contents.  This is what [reflect.DeepEqual] compares and what the store
    receives. *)
Definition StatusV := NRS.t (Slice.t string).
Definition NodeRolloutV := NodeRollout.t (Slice.t string).

Definition ConditionStatus_eq_dec (a b : ConditionStatus) : {a = b} + {a <> b}.
Proof. decide equality. Defined.

Definition NodeRolloutCondition_eq_dec (a b : NRC.t) : {a = b} + {a <> b}.
Proof.
  decide equality;
    auto using string_dec, Z.eq_dec, ConditionStatus_eq_dec.
Defined.

Definition Slice_eq_dec {A : Type} (dec : forall x y : A, {x = y} + {x <> y})
    (a b : Slice.t A) : {a = b} + {a <> b}.
Proof. decide equality. apply list_eq_dec, dec. Defined.

Definition StatusV_eq_dec (a b : StatusV) : {a = b} + {a <> b}.
Proof.
  decide equality;
    try apply Slice_eq_dec;
    auto using string_dec, Z.eq_dec, NodeRolloutCondition_eq_dec.
  decide equality. apply Z.eq_dec.
Defined.

(** ** The world outside the function: wall clock and cluster store *)

Record World := mkWorld {
  wall : nat -> Time;          (* the reading of the n-th call of Now() *)
  ticks : nat;                 (* calls of Now() so far *)
  persisted : NodeRolloutV;    (* the object as the store holds it *)
  updates : list NodeRolloutV; (* objects handed to c.Update, oldest first *)
  verdict : NodeRolloutV -> error  (* the store's answer to an update *)
}.

(** [metav1.Now()] *)
Definition Now (w : World) : Time * World :=
  (wall w (ticks w),
   mkWorld (wall w) (S (ticks w)) (persisted w) (updates w) (verdict w)).

(** [c.Update(ctx, obj)]: the call is logged; the store takes the object
    unless it answers with an error. *)
Definition Update (w : World) (obj : NodeRolloutV) : World * error :=
  match verdict w obj with
  | Some e =>
      (mkWorld (wall w) (ticks w) (persisted w) (updates w ++ [obj]) (verdict w),
       Some e)
  | None =>
      (mkWorld (wall w) (ticks w) obj (updates w ++ [obj]) (verdict w), None)
  end.

(** ** String slices over a memory

    [H] is the memory, [S] the slice header.  [isNil] and [len] read the
    header alone; [load] reads the contents; [append] is Go's [append] of
    one element and may write the memory. *)
Class GoSlice (H S : Type) := {
  isNil : S -> bool;
  len : S -> nat;
  load : H -> S -> Slice.t string;
  append : H -> S -> string -> H * S
}.

(** [s[k]] *)
Definition index {H S : Type} `{GoSlice H S} (h : H) (s : S) (k : nat)
  : string :=
  nth k (Slice.elems (load h s)) "".

(** ** status.go *)

Section StatusPackage.

Context {H S : Type} `{GoSlice H S}.

(** The contents of a status under the memory [h]. *)
Definition viewStatus (h : H) (st : NRS.t S) : StatusV :=
  NRS.mk (NRS.Phase st)
    (load h (NRS.ReplacementsCreated st)) (NRS.ReplacementsCreatedCount st)
    (load h (NRS.ReplacementsCompleted st)) (NRS.ReplacementsCompletedCount st)
    (load h (NRS.ReplacementsFailed st)) (NRS.ReplacementsFailedCount st)
    (NRS.CompletionTimestamp st) (NRS.Conditions st).

(** [reflect.DeepEqual] on two statuses: equality of the contents, which
    tells a nil slice from an empty one and follows the timestamp pointer. *)
Definition DeepEqual (h : H) (a b : NRS.t S) : bool :=
  if StatusV_eq_dec (viewStatus h a) (viewStatus h b) then true else false.

(** [setPhase] *)
Definition setPhase (status : NRS.t S) (result : Result.t S) : NRS.t S :=
  match Result.Phase result with
  | Some p => set_Phase status p
  | None => status
  end.

(** [setReplacementsCreated]: the status after the call and the error. *)
Definition setReplacementsCreated (status : NRS.t S) (result : Result.t S)
  : NRS.t S * error :=
  if negb (isNil (NRS.ReplacementsCreated status))
     && negb (isNil (Result.ReplacementsCreated result))
  then (status,
        Some "cannot update ReplacementsCreated, field is immutable once set")
  else
    if isNil (NRS.ReplacementsCreated status)
       && negb (isNil (Result.ReplacementsCreated result))
    then
      (set_ReplacementsCreatedCount
         (set_ReplacementsCreated status (Result.ReplacementsCreated result))
         (Z.of_nat (len (Result.ReplacementsCreated result))),
       None)
    else (status, None).

(** The loop of [appendIfMissingElement] over the positions [ks] of
    [slice]: is some element equal to [i]? *)
Fixpoint containsAt (h : H) (slice : S) (i : string) (ks : list nat) : bool :=
  match ks with
  | [] => false
  | k :: rest =>
      if String.eqb (index h slice k) i then true
      else containsAt h slice i rest
  end.

(** [appendIfMissingElement] *)
Definition appendIfMissingElement (h : H) (slice : S) (i : string) : H * S :=
  if containsAt h slice i (seq 0 (len slice)) then (h, slice)
  else append h slice i.

(** The loop of [appendIfMissingStr] over the positions [ks] of [str]: the
    range fixes the header of [str] once and reads each element when its
    turn comes. *)
Fixpoint appendIfMissingLoop (h : H) (merged str : S) (ks : list nat)
  : H * S :=
  match ks with
  | [] => (h, merged)
  | k :: rest =>
      let (h1, merged1) := appendIfMissingElement h merged (index h str k) in
      appendIfMissingLoop h1 merged1 str rest
  end.

(** [appendIfMissingStr]; [str] is the variadic argument. *)
Definition appendIfMissingStr (h : H) (slice str : S) : H * S :=
  appendIfMissingLoop h slice str (seq 0 (len str)).

(** [setReplacementsCompleted]: two [if]s in sequence, the second one sees
    the status the first one left. *)
Definition setReplacementsCompleted (h : H) (status : NRS.t S)
    (result : Result.t S) : H * NRS.t S :=
  let (h1, status1) :=
    if negb (isNil (NRS.ReplacementsCompleted status))
       && negb (isNil (Result.ReplacementsCompleted result))
    then
      let (h1, merged) :=
        appendIfMissingStr h (NRS.ReplacementsCompleted status)
          (Result.ReplacementsCompleted result) in
      (h1,
       set_ReplacementsCompletedCount
         (set_ReplacementsCompleted status merged) (Z.of_nat (len merged)))
    else (h, status) in
  if isNil (NRS.ReplacementsCompleted status1)
     && negb (isNil (Result.ReplacementsCompleted result))
  then
    (h1,
     set_ReplacementsCompletedCount
       (set_ReplacementsCompleted status1
          (Result.ReplacementsCompleted result))
       (Z.of_nat (len (Result.ReplacementsCompleted result))))
  else (h1, status1).

(** [setCompletionTimestamp] *)
Definition setCompletionTimestamp (status : NRS.t S) (result : Result.t S)
  : NRS.t S * error :=
  match NRS.CompletionTimestamp status, Result.CompletionTimestamp result with
  | Some _, Some _ =>
      (status,
       Some "cannot update CompletionTimestamp, field is immutable once set")
  | None, Some t => (set_CompletionTimestamp status (Some t), None)
  | _, None => (status, None)
  end.

(** [newNodeRolloutCondition]: the two timestamps are two readings of the
    clock, taken in the order of the struct literal. *)
Definition newNodeRolloutCondition (w : World) (condType : string)
    (status : ConditionStatus) (reason message : string) : NRC.t * World :=
  let (t1, w1) := Now w in
  let (t2, w2) := Now w1 in
  (NRC.mk condType status t1 t2 reason message, w2).

(** The loop of [getNodeRolloutCondition]. *)
Fixpoint findCondition (l : list NRC.t) (condType : string) : option NRC.t :=
  match l with
  | [] => None
  | c :: rest =>
      if String.eqb (NRC.Type_ c) condType then Some c
      else findCondition rest condType
  end.

(** [getNodeRolloutCondition]: a copy of the first condition of the type,
    or nil. *)
Definition getNodeRolloutCondition (status : NRS.t S) (condType : string)
  : option NRC.t :=
  findCondition (Slice.elems (NRS.Conditions status)) condType.

(** The loop of [filterOutCondition]. *)
Fixpoint filterOutLoop (newConditions : Slice.t NRC.t) (l : list NRC.t)
    (condType : string) : Slice.t NRC.t :=
  match l with
  | [] => newConditions
  | c :: rest =>
      if String.eqb (NRC.Type_ c) condType
      then filterOutLoop newConditions rest condType
      else filterOutLoop (Slice.append newConditions c) rest condType
  end.

(** [filterOutCondition]: starts from a nil slice and appends the conditions
    of the other types. *)
Definition filterOutCondition (conditions : Slice.t NRC.t) (condType : string)
  : Slice.t NRC.t :=
  filterOutLoop None (Slice.elems conditions) condType.

(** [setNodeRolloutCondition] *)
Definition setNodeRolloutCondition (status : NRS.t S) (condition : NRC.t)
  : NRS.t S :=
  let currentCond := getNodeRolloutCondition status (NRC.Type_ condition) in
  match currentCond with
  | Some cur =>
      if ConditionStatus_eqb (NRC.Status cur) (NRC.Status condition)
         && String.eqb (NRC.Reason cur) (NRC.Reason condition)
      then status
      else
        let condition :=
          if ConditionStatus_eqb (NRC.Status cur) (NRC.Status condition)
          then set_LastTransitionTime condition (NRC.LastTransitionTime cur)
          else condition in
        set_Conditions status
          (Slice.append (filterOutCondition (NRS.Conditions status)
                           (NRC.Type_ condition)) condition)
  | None =>
      set_Conditions status
        (Slice.append (filterOutCondition (NRS.Conditions status)
                         (NRC.Type_ condition)) condition)
  end.

(** The condition [setInProgressCondition] hands to
    [setNodeRolloutCondition]. *)
Definition inProgressCondition (w : World) (result : Result.t S)
  : NRC.t * World :=
  let (condition, w1) :=
    newNodeRolloutCondition w ReplacementsInProgressType ConditionTrue
      (Result.ReplacementsInProgressReason result) "" in
  let condition :=
    match Result.ReplacementsInProgressError result with
    | Some e => set_Message (set_Status condition ConditionFalse) e
    | None => condition
    end in
  let condition :=
    if String.eqb (Result.ReplacementsInProgressReason result)
         "ReplacementsCompleted"
    then set_Status condition ConditionFalse
    else condition in
  (condition, w1).

(** [setInProgressCondition] *)
Definition setInProgressCondition (w : World) (status : NRS.t S)
    (result : Result.t S) : World * NRS.t S * error :=
  if isSome (Result.ReplacementsInProgressError result)
     && String.eqb (Result.ReplacementsInProgressReason result) ""
  then (w, status,
        Some "if ReplacementsInProgressError is set, ReplacementsInProgressReason must also be set")
  else
    if negb (String.eqb (Result.ReplacementsInProgressReason result) "")
    then
      let (condition, w1) := inProgressCondition w result in
      (w1, setNodeRolloutCondition status condition, None)
    else (w, status, None).

(** The condition [setCreatedCondition] hands to
    [setNodeRolloutCondition]. *)
Definition createdCondition (w : World) (result : Result.t S)
  : NRC.t * World :=
  let (condition, w1) :=
    newNodeRolloutCondition w ReplacementsCreatedType ConditionTrue
      (Result.ReplacementsCreatedReason result) "" in
  let condition :=
    match Result.ReplacementsCreatedError result with
    | Some e => set_Message (set_Status condition ConditionFalse) e
    | None => condition
    end in
  (condition, w1).

(** [setCreatedCondition] *)
Definition setCreatedCondition (w : World) (status : NRS.t S)
    (result : Result.t S) : World * NRS.t S * error :=
  if isSome (Result.ReplacementsCreatedError result)
     && String.eqb (Result.ReplacementsCreatedReason result) ""
  then (w, status,
        Some "if ReplacementsCreatedError is set, ReplacementsCreatedReason must also be set")
  else
    if negb (String.eqb (Result.ReplacementsCreatedReason result) "")
    then
      let (condition, w1) := createdCondition w result in
      (w1, setNodeRolloutCondition status condition, None)
    else (w, status, None).

(** [UpdateStatus], lines 19 to 42: the merge of the result into the local
    copy [status] of the instance's status.  The result is the world, the
    memory, the local [status] and the error on leaving that part of the
    function. *)
Definition mergeStatus (w : World) (h : H) (instance : NodeRollout.t S)
    (result : Result.t S) : World * H * NRS.t S * error :=
  let status := NodeRollout.Status instance in
  let status := setPhase status result in
  let (status, err) := setReplacementsCreated status result in
  match err with
  | Some _ => (w, h, status, err)
  | None =>
      let (h, status) := setReplacementsCompleted h status result in
      let (status, err) := setCompletionTimestamp status result in
      match err with
      | Some _ => (w, h, status, err)
      | None =>
          let '(w, status, err) := setCreatedCondition w status result in
          match err with
          | Some _ => (w, h, status, err)
          | None =>
              let '(w, status, err) := setInProgressCondition w status result in
              (w, h, status, err)
          end
      end
  end.

(** [UpdateStatus]: the merge, then the comparison and the write of lines 44
    to 54.  [copy] is the deep copy of the instance carrying the merged
    status, as the store receives it.  (The arrays [DeepCopy] allocates for
    the old status are dropped at once and are left out.) *)
Definition UpdateStatus (w : World) (h : H) (instance : NodeRollout.t S)
    (result : Result.t S) : World * H * error :=
  let '(w, h, status, err) := mergeStatus w h instance result in
  match err with
  | Some _ => (w, h, err)
  | None =>
      if negb (DeepEqual h status (NodeRollout.Status instance))
      then
        let copy :=
          NodeRollout.mk (NodeRollout.Name instance) (viewStatus h status) in
        let (w, err) := Update w copy in
        match err with
        | Some e => (w, h, Some ("error updating status: " ++ e)%string)
        | None => (w, h, None)
        end
      else (w, h, None)
  end.

End StatusPackage.

(** ** The two memories *)

(** Slices as values: the header is the contents, there is no memory to
    share. *)
#[export] Instance ValueSlice : GoSlice unit (Slice.t string) := {
  isNil := Slice.isNil;
  len := Slice.len;
  load := fun _ s => s;
  append := fun h s x => (h, Slice.append s x)
}.

Module Flat.

(** A slice header: address of the first cell, length, capacity. *)
Record header := mkHeader {
  ptr : nat;
  hlen : nat;
  hcap : nat
}.

(** A slice is nil or a header. *)
Definition slice := option header.

(** The cells that hold strings, the first free address, and the growth
    policy of the runtime (the capacity asked for when an array of the given
    capacity is full). *)
Record Heap := mkHeap {
  cells : nat -> string;
  brk : nat;
  growslice : nat -> nat
}.

Definition headerOf (s : slice) : header :=
  match s with
  | Some hd => hd
  | None => mkHeader 0 0 0
  end.

Definition loadSlice (h : Heap) (s : slice) : Slice.t string :=
  match s with
  | Some hd => Some (map (cells h) (seq (ptr hd) (hlen hd)))
  | None => None
  end.

Definition store (f : nat -> string) (a : nat) (v : string) : nat -> string :=
  fun x => if Nat.eqb x a then v else f x.

(** The cells after [n] cells from address [from] are copied to address
    [to]. *)
Definition copyCells (f : nat -> string) (from to n : nat) : nat -> string :=
  fun x =>
    if Nat.leb to x && Nat.ltb x (to + n) then f (from + (x - to)) else f x.

(** [append(s, x)]: with spare capacity the element is written in place,
    behind the last one; otherwise the contents move to a new array at the
    first free address. *)
Definition appendSlice (h : Heap) (s : slice) (x : string) : Heap * slice :=
  let hd := headerOf s in
  if Nat.ltb (hlen hd) (hcap hd)
  then
    (mkHeap (store (cells h) (ptr hd + hlen hd) x) (brk h) (growslice h),
     Some (mkHeader (ptr hd) (S (hlen hd)) (hcap hd)))
  else
    let newcap := Nat.max (S (hlen hd)) (growslice h (hcap hd)) in
    (mkHeap
       (store (copyCells (cells h) (ptr hd) (brk h) (hlen hd))
          (brk h + hlen hd) x)
       (brk h + newcap) (growslice h),
     Some (mkHeader (brk h) (S (hlen hd)) newcap)).

#[export] Instance FlatSlice : GoSlice Heap slice := {
  isNil := fun s => negb (isSome s);
  len := fun s => hlen (headerOf s);
  load := loadSlice;
  append := appendSlice
}.

(** The cells a slice shows, and the cells of its array behind them. *)
Definition visible (s : slice) (a : nat) : Prop :=
  match s with
  | Some hd => ptr hd <= a < ptr hd + hlen hd
  | None => False
  end.

Definition spare (s : slice) (a : nat) : Prop :=
  ptr (headerOf s) + hlen (headerOf s) <= a
  < ptr (headerOf s) + hcap (headerOf s).

(** The slice [s] shows allocated cells only, and none of them lies in the
    spare capacity of [target]. *)
Definition clearOf (h : Heap) (target s : slice) : Prop :=
  forall a, visible s a -> a < brk h /\ ~ spare target a.

(** The three string slices of a status are clear of the spare capacity of
    its ReplacementsCompleted.  This holds of every status whose slices have
    arrays of their own, as after decoding or [DeepCopy]. *)
Definition separated (h : Heap) (st : NRS.t slice) : Prop :=
  clearOf h (NRS.ReplacementsCompleted st) (NRS.ReplacementsCreated st) /\
  clearOf h (NRS.ReplacementsCompleted st) (NRS.ReplacementsCompleted st) /\
  clearOf h (NRS.ReplacementsCompleted st) (NRS.ReplacementsFailed st).

(** The merged slice of the loop is the stored slice grown in place, or an
    array allocated after the loop began. *)
Definition tracks (h0 : Heap) (target m : slice) : Prop :=
  (ptr (headerOf m) = ptr (headerOf target) /\
   hcap (headerOf m) = hcap (headerOf target) /\
   hlen (headerOf target) <= hlen (headerOf m)) \/
  brk h0 <= ptr (headerOf m).

(** The cells allocated when the loop began and outside the spare capacity
    of the stored slice hold what they held. *)
Definition agreeOutside (h0 h : Heap) (target : slice) : Prop :=
  forall a, a < brk h0 -> ~ spare target a -> cells h a = cells h0 a.

(** A result and an instance by their contents. *)
Definition viewResult (h : Heap) (r : Result.t slice) : Result.t (Slice.t string) :=
  Result.mk (Result.Phase r)
    (loadSlice h (Result.ReplacementsCreated r))
    (loadSlice h (Result.ReplacementsCompleted r))
    (Result.CompletionTimestamp r)
    (Result.ReplacementsCreatedError r) (Result.ReplacementsCreatedReason r)
    (Result.ReplacementsInProgressError r)
    (Result.ReplacementsInProgressReason r).

Definition viewInstance (h : Heap) (i : NodeRollout.t slice)
  : NodeRollout.t (Slice.t string) :=
  NodeRollout.mk (NodeRollout.Name i) (viewStatus h (NodeRollout.Status i)).

(** The slices of the instance and of the result are clear of the spare
    capacity of the instance's ReplacementsCompleted. *)
Definition apart (h : Heap) (i : NodeRollout.t slice) (r : Result.t slice)
  : Prop :=
  separated h (NodeRollout.Status i) /\
  clearOf h (NRS.ReplacementsCompleted (NodeRollout.Status i))
    (Result.ReplacementsCreated r) /\
  clearOf h (NRS.ReplacementsCompleted (NodeRollout.Status i))
    (Result.ReplacementsCompleted r).

(** An instance whose ReplacementsCompleted is the front of the array of its
    ReplacementsCreated, and a result that completes one more name. *)
Definition sharedCells : nat -> string :=
  fun a => nth a ["m1"; "w1"; "m2"; "w2"; "w2"] "".

Definition sharedHeap : Heap := mkHeap sharedCells 5 (fun c => 2 * c).

Definition sharedStatus : NRS.t slice :=
  NRS.mk "InProgress" (Some (mkHeader 0 4 4)) 4 (Some (mkHeader 0 2 4)) 2
    None 0 None None.

Definition sharedInstance : NodeRollout.t slice :=
  NodeRollout.mk "example" sharedStatus.

Definition completesW2 : Result.t slice :=
  Result.mk None None (Some (mkHeader 4 1 1)) None None "" None "".

(** The same contents with an array for each slice. *)
Definition apartCells : nat -> string :=
  fun a => nth a ["m1"; "w1"; "m2"; "w2"; "m1"; "w1"; ""; ""; "w2"] "".

Definition apartHeap : Heap := mkHeap apartCells 9 (fun c => 2 * c).

Definition apartStatus : NRS.t slice :=
  NRS.mk "InProgress" (Some (mkHeader 0 4 4)) 4 (Some (mkHeader 4 2 4)) 2
    None 0 None None.

Definition apartInstance : NodeRollout.t slice :=
  NodeRollout.mk "example" apartStatus.

Definition apartResult : Result.t slice :=
  Result.mk None None (Some (mkHeader 8 1 1)) None None "" None "".


End Flat.

(** ** The NodeReplacement handler *)

Module Handler.

Inductive NodeReplacementPhase :=
| ReplacementPhaseNew
| ReplacementPhaseInProgress
| ReplacementPhaseCompleted
| ReplacementPhaseFailed.

Definition isInProgress (p : NodeReplacementPhase) : bool :=
  match p with
  | ReplacementPhaseInProgress => true
  | _ => false
  end.

Record NodeReplacement := mkNodeReplacement {
  Name : string;
  Priority : Z;
  Phase : NodeReplacementPhase
}.

Definition dquote : string := String "034"%char EmptyString.

(** The first replacement other than [self] that is in progress. *)
Fixpoint firstInProgress (self : string) (items : list NodeReplacement)
  : option NodeReplacement :=
  match items with
  | [] => None
  | nr :: rest =>
      if negb (String.eqb (Name nr) self) && isInProgress (Phase nr)
      then Some nr
      else firstInProgress self rest
  end.

(** The first replacement other than [self] of a priority above [p]. *)
Fixpoint firstHigherPriority (self : string) (p : Z)
    (items : list NodeReplacement) : option NodeReplacement :=
  match items with
  | [] => None
  | nr :: rest =>
      if negb (String.eqb (Name nr) self) && Z.ltb p (Priority nr)
      then Some nr
      else firstHigherPriority self p rest
  end.

(** The two reasons, as the format strings of the test expectations. *)
Definition inProgressReason (name : string) : string :=
  ("NodeReplacement " ++ dquote ++ name ++ dquote
   ++ " is already in-progress")%string.

Definition higherPriorityReason (name : string) : string :=
  ("NodeReplacement " ++ dquote ++ name ++ dquote
   ++ " has a higher priority")%string.

(** Modelled from the spec: [shouldProcess] of the NodeReplacement handler
    is not among the sources, only its test is (the [shouldProcess] context
    of the handler test).  The definition follows section 4.2 of the spec:
    every other replacement is looked at, one in progress blocks first, then
    one of a strictly higher priority.  A replacement is the candidate
    itself when it carries the candidate's name; of several blockers the
    first in the list is named (the spec leaves the choice open). *)
Definition shouldProcess (instance : NodeReplacement)
    (replacements : list NodeReplacement) : bool * string :=
  match firstInProgress (Name instance) replacements with
  | Some nr =>
      (false, inProgressReason (Name nr))
  | None =>
      match firstHigherPriority (Name instance) (Priority instance)
              replacements with
      | Some nr =>
          (false, higherPriorityReason (Name nr))
      | None => (true, "")
      end
  end.

Record OwnerReference := mkOwnerReference {
  Kind : string;
  OwnerName : string
}.

Record Pod := mkPod {
  PodName : string;
  NodeName : string;
  OwnerReferences : list OwnerReference
}.

Record PodReason := mkPodReason {
  PRName : string;
  Reason : string
}.

Definition ownedByDaemonSet (pod : Pod) : bool :=
  existsb (fun o => String.eqb (Kind o) "DaemonSet") (OwnerReferences pod).

Definition boundTo (node : string) (pod : Pod) : bool :=
  String.eqb (NodeName pod) node.

(** Modelled from the spec: [processPods] of the NodeReplacement handler is
    not among the sources, only its test is (the [processPods] context of
    the handler test).  The pods are those the store lists, kept when bound
    to the node.  The ignored pods follow section 4.3 of the spec: the pods
    owned by a DaemonSet, with that reason.  For the first list the test is
    followed: it expects [nodePods] to consist of pod-1, pod-2 and pod-3
    while pod-2 is owned by a DaemonSet, so [nodePods] names every pod
    bound to the node. *)
Definition processPods (node : string) (pods : list Pod)
  : list string * list PodReason :=
  let onNode := filter (boundTo node) pods in
  (map PodName onNode,
   map (fun p => mkPodReason (PodName p) "pod owned by a DaemonSet")
     (filter ownedByDaemonSet onNode)).

(** Section 4.3 of the spec read by its words, for comparison: the evictable
    pods are the pods of the node that no DaemonSet owns. *)
Definition classifyPods_spec (node : string) (pods : list Pod)
  : list string * list PodReason :=
  let onNode := filter (boundTo node) pods in
  (map PodName (filter (fun p => negb (ownedByDaemonSet p)) onNode),
   map (fun p => mkPodReason (PodName p) "pod owned by a DaemonSet")
     (filter ownedByDaemonSet onNode)).

End Handler.

(** ** Vocabulary of the statements *)

Definition ResultV := Result.t (Slice.t string).

(** Two worlds that differ at most in the clock ticks: same store, same
    log of updates. *)
Definition sameStore (w w' : World) : Prop :=
  wall w' = wall w /\ persisted w' = persisted w /\
  updates w' = updates w /\ verdict w' = verdict w.

(** ** Fixtures, after [status_test.go] *)

Definition emptyStatus : StatusV :=
  NRS.mk "" None 0 None 0 None 0 None None.

Definition emptyResult : ResultV :=
  Result.mk None None None None None "" None "".

Definition exampleRollout (st : StatusV) : NodeRolloutV :=
  NodeRollout.mk "example" st.

(** A world whose clock reads its own tick count and whose store holds
    [obj] and takes every update. *)
Definition acceptingWorld (obj : NodeRolloutV) : World :=
  mkWorld (fun n => Z.of_nat n) 0 obj [] (fun _ => None).

(** A world whose store rejects every update with a conflict. *)
Definition rejectingWorld (obj : NodeRolloutV) : World :=
  mkWorld (fun n => Z.of_nat n) 0 obj [] (fun _ => Some "conflict").

Definition with_Created (st : StatusV) (l : list string) : StatusV :=
  set_ReplacementsCreatedCount (set_ReplacementsCreated st (Some l))
    (Z.of_nat (List.length l)).

Definition with_Completed (st : StatusV) (l : list string) : StatusV :=
  set_ReplacementsCompletedCount (set_ReplacementsCompleted st (Some l))
    (Z.of_nat (List.length l)).

Definition result_Created (r : ResultV) (l : Slice.t string) : ResultV :=
  Result.mk (Result.Phase r) l (Result.ReplacementsCompleted r)
    (Result.CompletionTimestamp r) (Result.ReplacementsCreatedError r)
    (Result.ReplacementsCreatedReason r) (Result.ReplacementsInProgressError r)
    (Result.ReplacementsInProgressReason r).

Definition result_Completed (r : ResultV) (l : Slice.t string) : ResultV :=
  Result.mk (Result.Phase r) (Result.ReplacementsCreated r) l
    (Result.CompletionTimestamp r) (Result.ReplacementsCreatedError r)
    (Result.ReplacementsCreatedReason r) (Result.ReplacementsInProgressError r)
    (Result.ReplacementsInProgressReason r).

Definition result_Timestamp (r : ResultV) (t : option Time) : ResultV :=
  Result.mk (Result.Phase r) (Result.ReplacementsCreated r)
    (Result.ReplacementsCompleted r) t (Result.ReplacementsCreatedError r)
    (Result.ReplacementsCreatedReason r) (Result.ReplacementsInProgressError r)
    (Result.ReplacementsInProgressReason r).

Definition result_CreatedCondition (r : ResultV) (e : error) (reason : string)
  : ResultV :=
  Result.mk (Result.Phase r) (Result.ReplacementsCreated r)
    (Result.ReplacementsCompleted r) (Result.CompletionTimestamp r) e reason
    (Result.ReplacementsInProgressError r)
    (Result.ReplacementsInProgressReason r).

Definition result_InProgressCondition (r : ResultV) (e : error)
    (reason : string) : ResultV :=
  Result.mk (Result.Phase r) (Result.ReplacementsCreated r)
    (Result.ReplacementsCompleted r) (Result.CompletionTimestamp r)
    (Result.ReplacementsCreatedError r) (Result.ReplacementsCreatedReason r)
    e reason.

Definition result_Phase (r : ResultV) (p : string) : ResultV :=
  Result.mk (Some p) (Result.ReplacementsCreated r)
    (Result.ReplacementsCompleted r) (Result.CompletionTimestamp r)
    (Result.ReplacementsCreatedError r) (Result.ReplacementsCreatedReason r)
    (Result.ReplacementsInProgressError r)
    (Result.ReplacementsInProgressReason r).

Definition existingCreated : StatusV :=
  with_Created emptyStatus ["example-master-1"; "example-worker-1"].

Definition fourNames : list string :=
  ["example-master-1"; "example-master-2"; "example-worker-1";
   "example-worker-2"].

Definition bothSet : StatusV :=
  set_CompletionTimestamp existingCreated (Some 1%Z).

Definition timestampSet : StatusV :=
  set_CompletionTimestamp emptyStatus (Some 1%Z).

(** A result that supplies both write-once fields. *)
Definition bothSupplied : ResultV :=
  result_Timestamp (result_Created emptyResult (Some fourNames)) (Some 2%Z).

(** A status whose ReplacementsCreated was assigned the empty list. *)
Definition createdEmpty : StatusV := with_Created emptyStatus [].

(** What the loops of [appendIfMissingStr] compute on contents: each new name
    is put behind the names collected so far unless it is among them. *)
Definition addIfMissing (acc : list string) (x : string) : list string :=
  if existsb (fun ele => String.eqb ele x) acc then acc else acc ++ [x].

Definition mergeNames (acc new : list string) : list string :=
  fold_left addIfMissing new acc.


(** The merge of section 8 of the spec: stored m1, w1 and result m2, w2. *)
Definition storedM1W1 : StatusV := with_Completed emptyStatus ["m1"; "w1"].

Definition resultM2W2 : ResultV :=
  result_Completed emptyResult (Some ["m2"; "w2"]).

(** The types of the conditions of a status, in order; at most one entry
    per type; the number of entries of a type. *)
Definition typesOf {S : Type} (st : NRS.t S) : list string :=
  map NRC.Type_ (Slice.elems (NRS.Conditions st)).

Definition onePerType {S : Type} (st : NRS.t S) : Prop := NoDup (typesOf st).

Definition countType {S : Type} (st : NRS.t S) (condType : string) : nat :=
  count_occ string_dec (typesOf st) condType.

(** The test of the loop of [filterOutCondition]. *)
Definition otherType (T : string) (c : NRC.t) : bool :=
  negb (String.eqb (NRC.Type_ c) T).

(** What [setNodeRolloutCondition] stores when it does not return early. *)
Definition replaced {S : Type} (st : NRS.t S) (c : NRC.t) : NRS.t S :=
  set_Conditions st
    (Slice.append (filterOutCondition (NRS.Conditions st) (NRC.Type_ c)) c).

(** Two statuses that agree on everything but the conditions. *)
Definition sameButConditions {S : Type} (st st' : NRS.t S) : Prop :=
  NRS.Phase st' = NRS.Phase st /\
  NRS.ReplacementsCreated st' = NRS.ReplacementsCreated st /\
  NRS.ReplacementsCreatedCount st' = NRS.ReplacementsCreatedCount st /\
  NRS.ReplacementsCompleted st' = NRS.ReplacementsCompleted st /\
  NRS.ReplacementsCompletedCount st' = NRS.ReplacementsCompletedCount st /\
  NRS.ReplacementsFailed st' = NRS.ReplacementsFailed st /\
  NRS.ReplacementsFailedCount st' = NRS.ReplacementsFailedCount st /\
  NRS.CompletionTimestamp st' = NRS.CompletionTimestamp st.

(** The two conflicts [UpdateStatus] checks before it looks at the
    conditions. *)
Definition createdConflict {H S : Type} `{GoSlice H S} (i : NodeRollout.t S)
    (r : Result.t S) : bool :=
  negb (isNil (NRS.ReplacementsCreated (NodeRollout.Status i)))
  && negb (isNil (Result.ReplacementsCreated r)).

Definition timestampConflict {S : Type} (i : NodeRollout.t S)
    (r : Result.t S) : bool :=
  isSome (NRS.CompletionTimestamp (NodeRollout.Status i))
  && isSome (Result.CompletionTimestamp r).

(** An error without a reason, for either condition. *)
Definition createdMalformed {S : Type} (r : Result.t S) : bool :=
  isSome (Result.ReplacementsCreatedError r)
  && String.eqb (Result.ReplacementsCreatedReason r) "".

Definition inProgressMalformed {S : Type} (r : Result.t S) : bool :=
  isSome (Result.ReplacementsInProgressError r)
  && String.eqb (Result.ReplacementsInProgressReason r) "".

Definition errorText (e : error) : string :=
  match e with
  | Some s => s
  | None => ""
  end.

(** A condition as the status tests build it. *)
Definition createdTrue (reason : string) (t : Time) : NRC.t :=
  NRC.mk ReplacementsCreatedType ConditionTrue t t reason "".

(** A status that holds one Created condition, and three conditions to
    apply to it: the same status and reason, another reason, another
    status. *)
Definition conditionA : NRC.t :=
  NRC.mk ReplacementsCreatedType ConditionTrue 5%Z 5%Z "ReasonA" "first".

Definition statusWithA : StatusV :=
  set_Conditions emptyStatus (Some [conditionA]).

Definition sameAgain : NRC.t :=
  NRC.mk ReplacementsCreatedType ConditionTrue 9%Z 10%Z "ReasonA" "second".

Definition otherReason : NRC.t :=
  NRC.mk ReplacementsCreatedType ConditionTrue 9%Z 10%Z "ReasonB" "".

Definition otherStatus : NRC.t :=
  NRC.mk ReplacementsCreatedType ConditionFalse 9%Z 10%Z "ReasonA" "boom".


(** Results after the status tests: an error with its reason, an error
    alone, a reason alone. *)
Definition createdErrorWithReason : ResultV :=
  result_CreatedCondition emptyResult (Some "error creating replacements")
    "CompletedErrorReason".



Definition inProgressCompleted : ResultV :=
  result_InProgressCondition emptyResult None "ReplacementsCompleted".

(** ** Fixtures, after the handler test *)

Module HandlerFixtures.
Import Handler.

(** The candidate, with the priority the test gives it. *)
Definition nodeReplacement : NodeReplacement :=
  mkNodeReplacement "example" 0 ReplacementPhaseNew.

Definition highPriorityNR : NodeReplacement :=
  mkNodeReplacement "high-priority" 10 ReplacementPhaseNew.

Definition inProgressNR : NodeReplacement :=
  mkNodeReplacement "in-progress" 0 ReplacementPhaseInProgress.

Definition daemonset : OwnerReference :=
  mkOwnerReference "DaemonSet" "example-daemonset".

Definition pod1 : Pod := mkPod "pod-1" "example-worker-1" [].
Definition pod2 : Pod := mkPod "pod-2" "example-worker-1" [daemonset].
Definition pod3 : Pod := mkPod "pod-3" "example-worker-1" [].
Definition pod4 : Pod := mkPod "pod-4" "example-worker-2" [].

Definition clusterPods : list Pod := [pod1; pod2; pod3; pod4].

End HandlerFixtures.

(** ** Vocabulary of the further properties *)

(** The two counts of a status agree with the lengths of their slices. *)
Definition countsAgree {H S : Type} `{GoSlice H S} (st : NRS.t S) : Prop :=
  NRS.ReplacementsCreatedCount st
  = Z.of_nat (len (NRS.ReplacementsCreated st)) /\
  NRS.ReplacementsCompletedCount st
  = Z.of_nat (len (NRS.ReplacementsCompleted st)).

(** A result that carries nothing: no phase, nil slices, no timestamp, no
    error and no reason. *)
Definition carriesNothing {H S : Type} `{GoSlice H S} (r : Result.t S)
  : Prop :=
  Result.Phase r = None /\
  isNil (Result.ReplacementsCreated r) = true /\
  isNil (Result.ReplacementsCompleted r) = true /\
  Result.CompletionTimestamp r = None /\
  Result.ReplacementsCreatedError r = None /\
  Result.ReplacementsCreatedReason r = "" /\
  Result.ReplacementsInProgressError r = None /\
  Result.ReplacementsInProgressReason r = "".

(** The four checks of [UpdateStatus] in their order, and the error of the
    first one that fails. *)
Definition firstFailedCheck {H S : Type} `{GoSlice H S}
    (i : NodeRollout.t S) (r : Result.t S) : error :=
  if createdConflict i r
  then Some "cannot update ReplacementsCreated, field is immutable once set"
  else if timestampConflict i r
  then Some "cannot update CompletionTimestamp, field is immutable once set"
  else if createdMalformed r
  then Some "if ReplacementsCreatedError is set, ReplacementsCreatedReason must also be set"
  else if inProgressMalformed r
  then Some "if ReplacementsInProgressError is set, ReplacementsInProgressReason must also be set"
  else None.

(** A status with two completed names and one failed name, and a result
    that moves the phase on and completes two more names. *)
Definition runningStatus : StatusV :=
  NRS.mk "InProgress" (Some fourNames) 4
    (Some ["example-master-2"; "example-worker-1"]) 2
    (Some ["example-master-1"]) 1 None None.

Definition finishing : ResultV :=
  Result.mk (Some "Completed") None
    (Some ["example-worker-1"; "example-worker-2"]) None None
    "ReplacementsCreated" None "ReplacementsCompleted".

(** ** test/utils/matchers.go: matchers on a field path

    Reflection and the matcher library are taken as they present themselves
    to [WithField].  [V] is the type of the (non-nil) values a matcher is
    given and [R] what a matcher's [Match] returns.  [fieldByName obj name]
    stands for [reflect.Indirect(reflect.ValueOf(obj)).FieldByName(name)]
    followed by [Interface()]: the value of the field, an invalid value when
    the struct has no such field, or a panic of the reflect package (no
    struct, nil pointer, unexported field).  [typeName] is what "%s" prints
    for [reflect.TypeOf(obj)]. *)

Module Matchers.

(** [strings.SplitN(s, ".", 2)]: the text before the first dot and, when
    there is a dot, the text behind it. *)
Fixpoint splitDot (s : string) : string * option string :=
  match s with
  | EmptyString => (EmptyString, None)
  | String c rest =>
      if Ascii.eqb c "."%char then (EmptyString, Some rest)
      else
        let (first, tail) := splitDot rest in
        (String c first, tail)
  end.

Section WithReflection.

Variable V R : Type.

Inductive Lookup :=
| Found (v : V)
| Invalid
| ReflectPanic (msg : string).

Inductive Outcome :=
| Returned (r : R)
| Panicked (msg : string).

Variable fieldByName : V -> string -> Lookup.
Variable typeName : V -> string.

(** A matcher, by its [Match]. *)
Definition Matcher := V -> Outcome.

(** [gomega.WithTransform(transform, matcher)]: the matcher is given the
    transformed value; a panic of the transform goes through. *)
Definition WithTransform (transform : V -> V + string) (matcher : Matcher)
  : Matcher :=
  fun obj =>
    match transform obj with
    | inl v => matcher v
    | inr msg => Panicked msg
    end.

(** The transform of [WithField] for the field [name]. *)
Definition getField (name : string) (obj : V) : V + string :=
  match fieldByName obj name with
  | Found v => inl v
  | Invalid =>
      inr ("Object '" ++ typeName obj ++ "' does not have a field '"
           ++ name ++ "'")%string
  | ReflectPanic msg => inr msg
  end.

(** [WithField] with the recursion bounded by [fuel]; the text behind the
    first dot is shorter than the field, so the length of the field is fuel
    enough. *)
Fixpoint WithFieldN (fuel : nat) (field : string) (matcher : Matcher)
  : Matcher :=
  let (first, rest) := splitDot field in
  let matcher :=
    match rest, fuel with
    | Some tail, Datatypes.S n => WithFieldN n tail matcher
    | _, _ => matcher
    end in
  WithTransform (getField first) matcher.

(** [WithField] *)
Definition WithField (field : string) (matcher : Matcher) : Matcher :=
  WithFieldN (String.length field) field matcher.

(** [WithNodeReplacementSpecField] *)
Definition WithNodeReplacementSpecField (field : string) (matcher : Matcher)
  : Matcher :=
  WithField ("Spec." ++ field)%string matcher.

(** Reading the fields [names] one after the other, from [obj] on, and
    matching what the last one holds. *)
Fixpoint follow (names : list string) (matcher : Matcher) (obj : V)
  : Outcome :=
  match names with
  | [] => matcher obj
  | name :: rest =>
      match getField name obj with
      | inl v => follow rest matcher v
      | inr msg => Panicked msg
      end
  end.

End WithReflection.

Arguments Found {V}.
Arguments Invalid {V}.
Arguments ReflectPanic {V}.
Arguments Returned {R}.
Arguments Panicked {R}.

(** The pieces of a path between its dots, the first one apart: a path
    always has a first piece, be it empty. *)
Fixpoint segments (s : string) : string * list string :=
  match s with
  | EmptyString => (EmptyString, [])
  | String c rest =>
      let (first, others) := segments rest in
      if Ascii.eqb c "."%char then (EmptyString, first :: others)
      else (String c first, others)
  end.

Definition pieces (s : string) : list string :=
  fst (segments s) :: snd (segments s).

Fixpoint joinDots (first : string) (others : list string) : string :=
  match others with
  | [] => first
  | next :: rest => (first ++ "." ++ joinDots next rest)%string
  end.

Fixpoint dotFree (s : string) : bool :=
  match s with
  | EmptyString => true
  | String c rest => negb (Ascii.eqb c "."%char) && dotFree rest
  end.

(** A node object for the examples: values are trees of named fields. *)
Inductive Tree :=
| Leaf (text : string)
| Struct (type : string) (fields : list Field)
with Field :=
| mkField (name : string) (value : Tree).

Fixpoint lookupField (fields : list Field) (name : string) : Lookup Tree :=
  match fields with
  | [] => Invalid
  | mkField n v :: rest =>
      if String.eqb n name then Found v else lookupField rest name
  end.

Definition treeField (obj : Tree) (name : string) : Lookup Tree :=
  match obj with
  | Struct _ fields => lookupField fields name
  | Leaf _ => ReflectPanic "reflect: call of reflect.Value.FieldByName on string Value"
  end.

Definition treeType (obj : Tree) : string :=
  match obj with
  | Struct type _ => type
  | Leaf _ => "string"
  end.

Definition cordonedNode : Tree :=
  Struct "*v1.Node"
    [mkField "Spec"
       (Struct "v1.NodeSpec" [mkField "Unschedulable" (Leaf "true")])].

(** A matcher that returns the text of the leaf it is given. *)
Definition leafText (obj : Tree) : Outcome string :=
  match obj with
  | Leaf text => Returned text
  | Struct type _ => Returned type
  end.

End Matchers.

(** * Properties *)


(** ** Frame lemmas of the setters *)

Section Frames.

Context {H S : Type} `{GoSlice H S}.

Lemma setPhase_frame (st : NRS.t S) (r : Result.t S) :
  NRS.ReplacementsCreated (setPhase st r) = NRS.ReplacementsCreated st /\
  NRS.ReplacementsCreatedCount (setPhase st r) = NRS.ReplacementsCreatedCount st /\
  NRS.ReplacementsCompleted (setPhase st r) = NRS.ReplacementsCompleted st /\
  NRS.ReplacementsCompletedCount (setPhase st r)
    = NRS.ReplacementsCompletedCount st /\
  NRS.ReplacementsFailed (setPhase st r) = NRS.ReplacementsFailed st /\
  NRS.CompletionTimestamp (setPhase st r) = NRS.CompletionTimestamp st /\
  NRS.Conditions (setPhase st r) = NRS.Conditions st.
Proof.
  unfold setPhase. destruct (Result.Phase r); cbn; repeat split; reflexivity.
Qed.

Lemma setReplacementsCreated_frame (st st' : NRS.t S) (r : Result.t S) e :
  setReplacementsCreated st r = (st', e) ->
  NRS.Phase st' = NRS.Phase st /\
  NRS.ReplacementsCompleted st' = NRS.ReplacementsCompleted st /\
  NRS.ReplacementsCompletedCount st' = NRS.ReplacementsCompletedCount st /\
  NRS.ReplacementsFailed st' = NRS.ReplacementsFailed st /\
  NRS.CompletionTimestamp st' = NRS.CompletionTimestamp st /\
  NRS.Conditions st' = NRS.Conditions st.
Proof.
  unfold setReplacementsCreated.
  destruct (negb (isNil (NRS.ReplacementsCreated st)) && _);
    [ intros [= <- <-]; repeat split; reflexivity | ].
  destruct (isNil (NRS.ReplacementsCreated st) && _);
    intros [= <- <-]; repeat split; reflexivity.
Qed.

Lemma setReplacementsCompleted_frame (h h' : H) (st st' : NRS.t S)
    (r : Result.t S) :
  setReplacementsCompleted h st r = (h', st') ->
  NRS.Phase st' = NRS.Phase st /\
  NRS.ReplacementsCreated st' = NRS.ReplacementsCreated st /\
  NRS.ReplacementsCreatedCount st' = NRS.ReplacementsCreatedCount st /\
  NRS.ReplacementsFailed st' = NRS.ReplacementsFailed st /\
  NRS.CompletionTimestamp st' = NRS.CompletionTimestamp st /\
  NRS.Conditions st' = NRS.Conditions st.
Proof.
  unfold setReplacementsCompleted.
  destruct (negb (isNil (NRS.ReplacementsCompleted st)) && _).
  - destruct (appendIfMissingStr _ _ _) as [h1 merged]. cbn.
    destruct (isNil merged && _); intros [= <- <-]; repeat split; reflexivity.
  - destruct (isNil (NRS.ReplacementsCompleted st) && _);
      intros [= <- <-]; repeat split; reflexivity.
Qed.

Lemma setCompletionTimestamp_frame (st st' : NRS.t S) (r : Result.t S) e :
  setCompletionTimestamp st r = (st', e) ->
  NRS.Phase st' = NRS.Phase st /\
  NRS.ReplacementsCreated st' = NRS.ReplacementsCreated st /\
  NRS.ReplacementsCreatedCount st' = NRS.ReplacementsCreatedCount st /\
  NRS.ReplacementsCompleted st' = NRS.ReplacementsCompleted st /\
  NRS.ReplacementsCompletedCount st' = NRS.ReplacementsCompletedCount st /\
  NRS.ReplacementsFailed st' = NRS.ReplacementsFailed st /\
  NRS.Conditions st' = NRS.Conditions st.
Proof.
  unfold setCompletionTimestamp.
  destruct (NRS.CompletionTimestamp st), (Result.CompletionTimestamp r);
    intros [= <- <-]; repeat split; reflexivity.
Qed.

Lemma sameStore_refl (w : World) : sameStore w w.
Proof. repeat split. Qed.

Lemma sameStore_trans (w1 w2 w3 : World) :
  sameStore w1 w2 -> sameStore w2 w3 -> sameStore w1 w3.
Proof.
  unfold sameStore. intros (a & b & c & d) (a' & b' & c' & d').
  repeat split; congruence.
Qed.

Lemma setCreatedCondition_world (w w' : World) (st st' : NRS.t S)
    (r : Result.t S) e :
  setCreatedCondition w st r = (w', st', e) -> sameStore w w'.
Proof.
  unfold setCreatedCondition, createdCondition, newNodeRolloutCondition, Now.
  destruct (isSome _ && _); [ intros [= <- <- <-]; apply sameStore_refl | ].
  destruct (negb _); intros [= <- <- <-]; repeat split.
Qed.

Lemma setInProgressCondition_world (w w' : World) (st st' : NRS.t S)
    (r : Result.t S) e :
  setInProgressCondition w st r = (w', st', e) -> sameStore w w'.
Proof.
  unfold setInProgressCondition, inProgressCondition,
    newNodeRolloutCondition, Now.
  destruct (isSome _ && _); [ intros [= <- <- <-]; apply sameStore_refl | ].
  destruct (negb _); intros [= <- <- <-]; repeat split.
Qed.

Lemma mergeStatus_world (w w' : World) (h h' : H) (i : NodeRollout.t S)
    (r : Result.t S) st' e :
  mergeStatus w h i r = (w', h', st', e) -> sameStore w w'.
Proof.
  unfold mergeStatus.
  destruct (setReplacementsCreated _ r) as [st1 [e1|]];
    [ intros [= <- <- <- <-]; apply sameStore_refl | ].
  destruct (setReplacementsCompleted h st1 r) as [h2 st2].
  destruct (setCompletionTimestamp st2 r) as [st3 [e3|]];
    [ intros [= <- <- <- <-]; apply sameStore_refl | ].
  destruct (setCreatedCondition w st3 r) as [[w4 st4] e4] eqn:E4.
  apply setCreatedCondition_world in E4.
  destruct e4 as [e4|]; [ intros [= <- <- <- <-]; exact E4 | ].
  destruct (setInProgressCondition w4 st4 r) as [[w5 st5] e5] eqn:E5.
  apply setInProgressCondition_world in E5.
  intros [= <- <- <- <-]. eapply sameStore_trans; eassumption.
Qed.

End Frames.

(** "when the phase is set in the Result" *)
Example test_phase :
  UpdateStatus (acceptingWorld (exampleRollout emptyStatus)) tt
    (exampleRollout emptyStatus) (result_Phase emptyResult "InProgress")
  = (mkWorld (fun n => Z.of_nat n) 0
       (exampleRollout (set_Phase emptyStatus "InProgress"))
       [exampleRollout (set_Phase emptyStatus "InProgress")] (fun _ => None),
     tt, None).
Proof. reflexivity. Qed.

(** "when no existing ReplacementsCreated is set" *)
Example test_created_unset :
  let '(w, _, e) :=
    UpdateStatus (acceptingWorld (exampleRollout emptyStatus)) tt
      (exampleRollout emptyStatus) (result_Created emptyResult (Some fourNames))
  in
  e = None /\
  NRS.ReplacementsCreated (NodeRollout.Status (persisted w)) = Some fourNames /\
  NRS.ReplacementsCreatedCount (NodeRollout.Status (persisted w)) = 4%Z.
Proof. repeat split. Qed.

(** "when an existing ReplacementsCreated is set and ReplacementsCreated is
    set in the Result" *)
Example test_created_set :
  let w0 := acceptingWorld (exampleRollout existingCreated) in
  UpdateStatus w0 tt (exampleRollout existingCreated)
    (result_Created emptyResult (Some fourNames))
  = (w0, tt,
     Some "cannot update ReplacementsCreated, field is immutable once set").
Proof. reflexivity. Qed.

(** "when an existing ReplacementsCompleted is set" *)
Example test_completed_set :
  let st := with_Completed emptyStatus ["example-master-1"; "example-worker-1"] in
  let '(w, _, e) :=
    UpdateStatus (acceptingWorld (exampleRollout st)) tt (exampleRollout st)
      (result_Completed emptyResult
         (Some ["example-master-2"; "example-worker-2"]))
  in
  e = None /\
  NRS.ReplacementsCompleted (NodeRollout.Status (persisted w))
  = Some ["example-master-1"; "example-worker-1"; "example-master-2";
          "example-worker-2"] /\
  NRS.ReplacementsCompletedCount (NodeRollout.Status (persisted w)) = 4%Z.
Proof. repeat split. Qed.

(** ** The two write-once fields *)

Section WriteOnce.

Context {H S : Type} `{GoSlice H S}.

Lemma setReplacementsCreated_conflict (st : NRS.t S) (r : Result.t S) :
  isNil (NRS.ReplacementsCreated st) = false ->
  isNil (Result.ReplacementsCreated r) = false ->
  setReplacementsCreated st r
  = (st, Some "cannot update ReplacementsCreated, field is immutable once set").
Proof.
  intros Hs Hr. unfold setReplacementsCreated. rewrite Hs, Hr. reflexivity.
Qed.

Lemma setReplacementsCreated_passes (st : NRS.t S) (r : Result.t S) :
  isNil (NRS.ReplacementsCreated st) = true \/
  isNil (Result.ReplacementsCreated r) = true ->
  exists st', setReplacementsCreated st r = (st', None).
Proof.
  intros Hn. unfold setReplacementsCreated.
  destruct (isNil (NRS.ReplacementsCreated st)),
    (isNil (Result.ReplacementsCreated r)); cbn;
    try (eexists; reflexivity).
  destruct Hn; discriminate.
Qed.

Lemma setCompletionTimestamp_conflict (st : NRS.t S) (r : Result.t S) :
  isSome (NRS.CompletionTimestamp st) = true ->
  isSome (Result.CompletionTimestamp r) = true ->
  setCompletionTimestamp st r
  = (st, Some "cannot update CompletionTimestamp, field is immutable once set").
Proof.
  unfold setCompletionTimestamp.
  destruct (NRS.CompletionTimestamp st), (Result.CompletionTimestamp r);
    cbn; intros; try discriminate; reflexivity.
Qed.

Lemma setCompletionTimestamp_passes (st : NRS.t S) (r : Result.t S) :
  isSome (NRS.CompletionTimestamp st) = false \/
  isSome (Result.CompletionTimestamp r) = false ->
  exists st', setCompletionTimestamp st r = (st', None).
Proof.
  unfold setCompletionTimestamp.
  destruct (NRS.CompletionTimestamp st), (Result.CompletionTimestamp r);
    cbn; intros [?|?]; try discriminate; eexists; reflexivity.
Qed.

Lemma UpdateStatus_created_conflict (w : World) (h : H)
    (i : NodeRollout.t S) (r : Result.t S) :
  isNil (NRS.ReplacementsCreated (NodeRollout.Status i)) = false ->
  isNil (Result.ReplacementsCreated r) = false ->
  UpdateStatus w h i r
  = (w, h,
     Some "cannot update ReplacementsCreated, field is immutable once set").
Proof.
  intros Hs Hr. unfold UpdateStatus, mergeStatus.
  rewrite setReplacementsCreated_conflict; [ reflexivity | | exact Hr ].
  destruct (setPhase_frame (NodeRollout.Status i) r) as (-> & _). exact Hs.
Qed.

Lemma UpdateStatus_timestamp_conflict (w : World) (h : H)
    (i : NodeRollout.t S) (r : Result.t S) :
  isSome (NRS.CompletionTimestamp (NodeRollout.Status i)) = true ->
  isSome (Result.CompletionTimestamp r) = true ->
  isNil (NRS.ReplacementsCreated (NodeRollout.Status i)) = true \/
  isNil (Result.ReplacementsCreated r) = true ->
  exists h',
    UpdateStatus w h i r
    = (w, h',
       Some "cannot update CompletionTimestamp, field is immutable once set").
Proof.
  intros Hs Hr Hc. unfold UpdateStatus, mergeStatus.
  destruct (setPhase_frame (NodeRollout.Status i) r)
    as (Ec & _ & _ & _ & _ & Et & _).
  destruct (setReplacementsCreated_passes (setPhase (NodeRollout.Status i) r) r)
    as [st1 E1]; [ rewrite Ec; exact Hc | ].
  rewrite E1.
  apply setReplacementsCreated_frame in E1.
  destruct E1 as (_ & _ & _ & _ & Et1 & _).
  destruct (setReplacementsCompleted h st1 r) as [h2 st2] eqn:E2.
  apply setReplacementsCompleted_frame in E2.
  destruct E2 as (_ & _ & _ & _ & Et2 & _).
  rewrite setCompletionTimestamp_conflict; [ eexists; reflexivity | | exact Hr ].
  rewrite Et2, Et1, Et. exact Hs.
Qed.

End WriteOnce.

(** C1, as amended.  When the instance's status already has
    ReplacementsCreated and the result supplies one too, [UpdateStatus]
    returns the ReplacementsCreated immutability error.  When the status
    already has a CompletionTimestamp, the result supplies one too, and the
    ReplacementsCreated check does not fail first, it returns the
    CompletionTimestamp immutability error.  In both cases the world comes
    back as it was: no update is handed to the store and the persisted object
    is the same. *)
Theorem UpdateStatus_write_once {H S : Type} `{GoSlice H S}
    (w : World) (h : H) (i : NodeRollout.t S) (r : Result.t S) :
  (isNil (NRS.ReplacementsCreated (NodeRollout.Status i)) = false ->
   isNil (Result.ReplacementsCreated r) = false ->
   exists h',
     UpdateStatus w h i r
     = (w, h',
        Some "cannot update ReplacementsCreated, field is immutable once set"))
  /\
  (isSome (NRS.CompletionTimestamp (NodeRollout.Status i)) = true ->
   isSome (Result.CompletionTimestamp r) = true ->
   isNil (NRS.ReplacementsCreated (NodeRollout.Status i)) = true \/
   isNil (Result.ReplacementsCreated r) = true ->
   exists h',
     UpdateStatus w h i r
     = (w, h',
        Some "cannot update CompletionTimestamp, field is immutable once set")).
Proof.
  split.
  - intros Hs Hr. exists h. apply UpdateStatus_created_conflict; assumption.
  - apply UpdateStatus_timestamp_conflict.
Qed.

Lemma UpdateStatus_write_once_witness :
  (exists h',
     UpdateStatus (acceptingWorld (exampleRollout existingCreated)) tt
       (exampleRollout existingCreated)
       (result_Created emptyResult (Some fourNames))
     = (acceptingWorld (exampleRollout existingCreated), h',
        Some "cannot update ReplacementsCreated, field is immutable once set"))
  /\
  (exists h',
     UpdateStatus (acceptingWorld (exampleRollout timestampSet)) tt
       (exampleRollout timestampSet)
       (result_Timestamp emptyResult (Some 2%Z))
     = (acceptingWorld (exampleRollout timestampSet), h',
        Some "cannot update CompletionTimestamp, field is immutable once set")).
Proof.
  split.
  - apply (proj1 (UpdateStatus_write_once _ tt _ _)); reflexivity.
  - apply (proj2 (UpdateStatus_write_once _ tt _ _));
      [ reflexivity | reflexivity | left; reflexivity ].
Defined.

(** C1 as stated fails when both fields are in conflict at once: the
    timestamp is set and supplied again, yet the error is the one of
    ReplacementsCreated, whose check comes first. *)
Lemma UpdateStatus_timestamp_error_preempted :
  isSome (NRS.CompletionTimestamp bothSet) = true /\
  isSome (Result.CompletionTimestamp bothSupplied) = true /\
  snd (UpdateStatus (acceptingWorld (exampleRollout bothSet)) tt
         (exampleRollout bothSet) bothSupplied)
  <> Some "cannot update CompletionTimestamp, field is immutable once set".
Proof.
  split; [ reflexivity | split; [ reflexivity | ] ].
  vm_compute. discriminate.
Qed.

(** C10.  A ReplacementsCreated that was assigned the empty list is set: any
    result that supplies a ReplacementsCreated value, empty or not, makes
    [UpdateStatus] fail with the immutability error, and nothing is
    written. *)
Theorem UpdateStatus_empty_created_is_set (w : World) (name : string)
    (st : StatusV) (r : ResultV) (l : list string) :
  NRS.ReplacementsCreated st = Some [] ->
  Result.ReplacementsCreated r = Some l ->
  UpdateStatus w tt (NodeRollout.mk name st) r
  = (w, tt,
     Some "cannot update ReplacementsCreated, field is immutable once set").
Proof.
  intros Hs Hr. apply UpdateStatus_created_conflict; cbn.
  - rewrite Hs. reflexivity.
  - rewrite Hr. reflexivity.
Qed.

Lemma UpdateStatus_empty_created_is_set_witness :
  UpdateStatus (acceptingWorld (exampleRollout createdEmpty)) tt
    (exampleRollout createdEmpty) (result_Created emptyResult (Some fourNames))
  = (acceptingWorld (exampleRollout createdEmpty), tt,
     Some "cannot update ReplacementsCreated, field is immutable once set").
Proof.
  apply (UpdateStatus_empty_created_is_set _ "example" createdEmpty _ fourNames);
    reflexivity.
Defined.

(** The check is on nil, not on emptiness: while the field is nil, a result
    that supplies the empty list is accepted and stored. *)
Example created_nil_accepts_empty :
  let '(w, _, e) :=
    UpdateStatus (acceptingWorld (exampleRollout emptyStatus)) tt
      (exampleRollout emptyStatus) (result_Created emptyResult (Some []))
  in
  e = None /\
  NRS.ReplacementsCreated (NodeRollout.Status (persisted w)) = Some [].
Proof. split; reflexivity. Qed.

(** ** ReplacementsCompleted: the merge of names *)

Lemma map_nth_seq (l : list string) :
  map (fun k => nth k l "") (seq 0 (List.length l)) = l.
Proof.
  apply nth_ext with (d := "") (d' := "").
  - rewrite length_map, length_seq. reflexivity.
  - intros n Hn. rewrite length_map, length_seq in Hn.
    rewrite nth_indep with (d' := nth 0 l "")
      by (rewrite length_map, length_seq; exact Hn).
    rewrite (map_nth (fun k => nth k l "") (seq 0 (List.length l)) 0 n).
    rewrite seq_nth by exact Hn. reflexivity.
Qed.

Section Loops.

Context {H S : Type} `{GoSlice H S}.

Lemma containsAt_existsb (h : H) (slice : S) (i : string) (ks : list nat) :
  containsAt h slice i ks
  = existsb (fun ele => String.eqb ele i) (map (index h slice) ks).
Proof.
  induction ks as [|k ks IH]; cbn; [ reflexivity | ].
  destruct (String.eqb (index h slice k) i); [ reflexivity | exact IH ].
Qed.

End Loops.

Lemma ValueSlice_elements (s : Slice.t string) :
  map (index (H := unit) tt s) (seq 0 (len s)) = Slice.elems s.
Proof. unfold index. cbn. apply map_nth_seq. Qed.

Lemma appendIfMissingElement_value (s : Slice.t string) (i : string) :
  appendIfMissingElement tt s i
  = (tt, if existsb (fun ele => String.eqb ele i) (Slice.elems s)
         then s else Some (Slice.elems s ++ [i])).
Proof.
  unfold appendIfMissingElement.
  rewrite containsAt_existsb, ValueSlice_elements.
  destruct (existsb _ _); reflexivity.
Qed.

Lemma appendIfMissingLoop_value (str : Slice.t string) (ks : list nat)
    (acc : list string) :
  appendIfMissingLoop tt (Some acc) str ks
  = (tt, Some (mergeNames acc (map (index (H := unit) tt str) ks))).
Proof.
  revert acc. induction ks as [|k ks IH]; intros acc; cbn [appendIfMissingLoop].
  - reflexivity.
  - rewrite appendIfMissingElement_value. cbn [Slice.elems map].
    unfold mergeNames. cbn [fold_left]. unfold addIfMissing at 2.
    destruct (existsb _ acc); apply IH.
Qed.

Lemma appendIfMissingStr_value (acc new : list string) :
  appendIfMissingStr tt (Some acc) (Some new) = (tt, Some (mergeNames acc new)).
Proof.
  unfold appendIfMissingStr. rewrite appendIfMissingLoop_value.
  rewrite ValueSlice_elements. reflexivity.
Qed.

Lemma existsb_eqb_In (acc : list string) (x : string) :
  existsb (fun ele => String.eqb ele x) acc = true <-> In x acc.
Proof.
  rewrite existsb_exists. split.
  - intros (y & Hy & E). apply String.eqb_eq in E. subst. exact Hy.
  - intros Hx. exists x. split; [ exact Hx | apply String.eqb_refl ].
Qed.

Lemma addIfMissing_In (acc : list string) (x y : string) :
  In y (addIfMissing acc x) <-> In y acc \/ y = x.
Proof.
  unfold addIfMissing.
  destruct (existsb _ acc) eqn:E.
  - apply existsb_eqb_In in E. split; [ auto | ].
    intros [Hy | ->]; assumption.
  - rewrite in_app_iff. cbn. intuition congruence.
Qed.


Lemma mergeNames_In (new acc : list string) (y : string) :
  In y (mergeNames acc new) <-> In y acc \/ In y new.
Proof.
  unfold mergeNames. revert acc.
  induction new as [|x new IH]; intros acc; cbn [fold_left].
  - cbn. tauto.
  - rewrite IH, addIfMissing_In. cbn. intuition congruence.
Qed.


(** The names already stored stay in front, in their order. *)
Lemma mergeNames_prefix (new acc : list string) :
  exists added, mergeNames acc new = acc ++ added.
Proof.
  unfold mergeNames. revert acc.
  induction new as [|x new IH]; intros acc; cbn [fold_left].
  - exists []. rewrite app_nil_r. reflexivity.
  - destruct (IH (addIfMissing acc x)) as [added E]. rewrite E.
    unfold addIfMissing. destruct (existsb _ acc).
    + exists added. reflexivity.
    + exists (x :: added). rewrite <- app_assoc. reflexivity.
Qed.

(** [setReplacementsCompleted] on values, by the two cases of the stored
    slice, for a result that supplies a list. *)
Lemma setReplacementsCompleted_value (st : StatusV) (r : ResultV)
    (new : list string) :
  Result.ReplacementsCompleted r = Some new ->
  setReplacementsCompleted tt st r
  = (tt,
     match NRS.ReplacementsCompleted st with
     | Some old =>
         set_ReplacementsCompletedCount
           (set_ReplacementsCompleted st (Some (mergeNames old new)))
           (Z.of_nat (List.length (mergeNames old new)))
     | None =>
         set_ReplacementsCompletedCount
           (set_ReplacementsCompleted st (Some new))
           (Z.of_nat (List.length new))
     end).
Proof.
  intros Hr. unfold setReplacementsCompleted. rewrite Hr.
  destruct (NRS.ReplacementsCompleted st) as [old|] eqn:Es.
  - rewrite appendIfMissingStr_value. reflexivity.
  - cbn. rewrite Es. reflexivity.
Qed.

Section ConditionFrames.

Context {H S : Type} `{GoSlice H S}.

Lemma sameButConditions_refl (st : NRS.t S) : sameButConditions st st.
Proof. repeat split. Qed.

Lemma setNodeRolloutCondition_same (st : NRS.t S) (c : NRC.t) :
  sameButConditions st (setNodeRolloutCondition st c).
Proof.
  unfold setNodeRolloutCondition.
  destruct (getNodeRolloutCondition st (NRC.Type_ c)) as [cur|];
    [ destruct (ConditionStatus_eqb (NRC.Status cur) (NRC.Status c)
                && String.eqb (NRC.Reason cur) (NRC.Reason c)) | ];
    repeat split.
Qed.

Lemma setCreatedCondition_same (w w' : World) (st st' : NRS.t S)
    (r : Result.t S) e :
  setCreatedCondition w st r = (w', st', e) -> sameButConditions st st'.
Proof.
  unfold setCreatedCondition.
  destruct (isSome _ && _);
    [ intros [= <- <- <-]; apply sameButConditions_refl | ].
  destruct (negb _).
  - destruct (createdCondition w r) as [c w1]. intros [= <- <- <-].
    apply setNodeRolloutCondition_same.
  - intros [= <- <- <-]; apply sameButConditions_refl.
Qed.

Lemma setInProgressCondition_same (w w' : World) (st st' : NRS.t S)
    (r : Result.t S) e :
  setInProgressCondition w st r = (w', st', e) -> sameButConditions st st'.
Proof.
  unfold setInProgressCondition.
  destruct (isSome _ && _);
    [ intros [= <- <- <-]; apply sameButConditions_refl | ].
  destruct (negb _).
  - destruct (inProgressCondition w r) as [c w1]. intros [= <- <- <-].
    apply setNodeRolloutCondition_same.
  - intros [= <- <- <-]; apply sameButConditions_refl.
Qed.

(** The steps of a merge that went through, one by one. *)
Lemma mergeStatus_steps (w w' : World) (h h' : H) (i : NodeRollout.t S)
    (r : Result.t S) (m : NRS.t S) :
  mergeStatus w h i r = (w', h', m, None) ->
  exists st1 st2 st3 w4 st4,
    setReplacementsCreated (setPhase (NodeRollout.Status i) r) r = (st1, None) /\
    setReplacementsCompleted h st1 r = (h', st2) /\
    setCompletionTimestamp st2 r = (st3, None) /\
    setCreatedCondition w st3 r = (w4, st4, None) /\
    setInProgressCondition w4 st4 r = (w', m, None).
Proof.
  unfold mergeStatus.
  destruct (setReplacementsCreated _ r) as [st1 [e1|]] eqn:E1;
    [ discriminate | ].
  destruct (setReplacementsCompleted h st1 r) as [h2 st2] eqn:E2.
  destruct (setCompletionTimestamp st2 r) as [st3 [e3|]] eqn:E3;
    [ discriminate | ].
  destruct (setCreatedCondition w st3 r) as [[w4 st4] [e4|]] eqn:E4;
    [ discriminate | ].
  destruct (setInProgressCondition w4 st4 r) as [[w5 st5] e5] eqn:E5.
  intros [= <- <- <- ->]. exists st1, st2, st3, w4, st4. auto.
Qed.

End ConditionFrames.



(** The example of section 8 of the spec, through [UpdateStatus]. *)
Example merge_m1_w1_with_m2_w2 :
  let '(w, _, e) :=
    UpdateStatus (acceptingWorld (exampleRollout storedM1W1)) tt
      (exampleRollout storedM1W1) resultM2W2 in
  e = None /\
  NRS.ReplacementsCompleted (NodeRollout.Status (persisted w))
  = Some ["m1"; "w1"; "m2"; "w2"] /\
  NRS.ReplacementsCompletedCount (NodeRollout.Status (persisted w)) = 4%Z.
Proof. repeat split. Qed.


(** ** Persistence: write on difference only *)

Lemma viewStatus_value (st : StatusV) : viewStatus tt st = st.
Proof. destruct st; reflexivity. Qed.

Lemma Update_log (w w' : World) (obj : NodeRolloutV) (e : error) :
  Update w obj = (w', e) ->
  updates w' = updates w ++ [obj] /\
  e = verdict w obj /\
  persisted w' = match e with Some _ => persisted w | None => obj end /\
  wall w' = wall w /\ ticks w' = ticks w /\ verdict w' = verdict w.
Proof.
  unfold Update. destruct (verdict w obj) as [x|];
    intros [= <- <-]; cbn; repeat split.
Qed.

(** C7.  Whatever the merge of lines 19 to 42 ends with: on an error the
    error is returned and nothing is written; on a merged status equal to the
    instance's status, by contents, nothing is written and nil is returned;
    on a merged status that differs, exactly one update is handed to the
    store, carrying the merged status, and a failure [x] of that update
    comes back as "error updating status: x" (the store then keeps what it
    held), a success as nil. *)
Theorem UpdateStatus_writes_iff_changed {H S : Type} `{GoSlice H S}
    (w w1 : World) (h h1 : H) (i : NodeRollout.t S) (r : Result.t S)
    (m : NRS.t S) (err : error) :
  mergeStatus w h i r = (w1, h1, m, err) ->
  let copy := NodeRollout.mk (NodeRollout.Name i) (viewStatus h1 m) in
  let w' := fst (fst (UpdateStatus w h i r)) in
  let e := snd (UpdateStatus w h i r) in
  match err with
  | Some x =>
      e = Some x /\ updates w' = updates w /\ persisted w' = persisted w
  | None =>
      (viewStatus h1 m = viewStatus h1 (NodeRollout.Status i) ->
       e = None /\ updates w' = updates w /\ persisted w' = persisted w) /\
      (viewStatus h1 m <> viewStatus h1 (NodeRollout.Status i) ->
       updates w' = updates w ++ [copy] /\
       match verdict w copy with
       | Some x =>
           e = Some ("error updating status: " ++ x)%string /\
           persisted w' = persisted w
       | None => e = None /\ persisted w' = copy
       end)
  end.
Proof.
  intros Hm. cbn zeta. unfold UpdateStatus. rewrite Hm.
  apply mergeStatus_world in Hm. destruct Hm as (Hwall & Hp & Hu & Hv).
  destruct err as [x|]; [ cbn; auto | ].
  unfold DeepEqual.
  destruct (StatusV_eq_dec (viewStatus h1 m)
              (viewStatus h1 (NodeRollout.Status i))) as [Eq|Ne]; cbn [negb].
  - split; [ intros _; cbn; auto | intros Hne; contradiction ].
  - split; [ intros Heq; contradiction | intros _ ].
    destruct (Update w1 _) as [w2 e2] eqn:EU.
    apply Update_log in EU. destruct EU as (L & V & P & _).
    rewrite Hv in V. rewrite <- V.
    destruct e2 as [x|]; cbn; rewrite L, P, Hu; auto.
Qed.

Lemma UpdateStatus_writes_iff_changed_witness :
  let w := rejectingWorld (exampleRollout emptyStatus) in
  let r := result_Phase emptyResult "InProgress" in
  let copy := exampleRollout (set_Phase emptyStatus "InProgress") in
  updates (fst (fst (UpdateStatus w tt (exampleRollout emptyStatus) r)))
  = [copy] /\
  snd (UpdateStatus w tt (exampleRollout emptyStatus) r)
  = Some "error updating status: conflict" /\
  persisted (fst (fst (UpdateStatus w tt (exampleRollout emptyStatus) r)))
  = exampleRollout emptyStatus.
Proof.
  intros w r copy.
  pose proof (UpdateStatus_writes_iff_changed w w tt tt
                (exampleRollout emptyStatus) r
                (set_Phase emptyStatus "InProgress") None eq_refl) as [_ Hd].
  destruct Hd as (L & E & P); [ discriminate | ].
  split; [ exact L | split; [ exact E | exact P ] ].
Defined.

(** A result that changes nothing: no update reaches the store. *)
Example no_change_no_write :
  let st := set_Phase emptyStatus "InProgress" in
  UpdateStatus (rejectingWorld (exampleRollout st)) tt (exampleRollout st)
    (result_Phase emptyResult "InProgress")
  = (rejectingWorld (exampleRollout st), tt, None).
Proof. reflexivity. Qed.

(** ** Conditions *)

Lemma findCondition_app (l1 l2 : list NRC.t) (T : string) :
  findCondition (l1 ++ l2) T
  = match findCondition l1 T with
    | Some c => Some c
    | None => findCondition l2 T
    end.
Proof.
  induction l1 as [|c l1 IH]; cbn; [ reflexivity | ].
  destruct (String.eqb (NRC.Type_ c) T); [ reflexivity | exact IH ].
Qed.

Lemma findCondition_Some (l : list NRC.t) (T : string) (c : NRC.t) :
  findCondition l T = Some c -> In c l /\ NRC.Type_ c = T.
Proof.
  induction l as [|a l IH]; cbn; [ discriminate | ].
  destruct (String.eqb (NRC.Type_ a) T) eqn:E.
  - intros [= <-]. apply String.eqb_eq in E. auto.
  - intros Hf. destruct (IH Hf). auto.
Qed.

Lemma findCondition_None (l : list NRC.t) (T : string) :
  findCondition l T = None <-> ~ In T (map NRC.Type_ l).
Proof.
  induction l as [|a l IH]; cbn; [ tauto | ].
  destruct (String.eqb (NRC.Type_ a) T) eqn:E.
  - apply String.eqb_eq in E. split; [ discriminate | intros Hn; tauto ].
  - apply String.eqb_neq in E. rewrite IH. tauto.
Qed.

(** Under at most one entry per type, an entry of the type is the one the
    lookup finds. *)
Lemma findCondition_unique (l : list NRC.t) (c : NRC.t) :
  NoDup (map NRC.Type_ l) -> In c l -> findCondition l (NRC.Type_ c) = Some c.
Proof.
  induction l as [|a l IH]; cbn; [ intros _ [] | ].
  intros Hnd [-> | Hin].
  - rewrite String.eqb_refl. reflexivity.
  - inversion Hnd as [|? ? Ha Hnd']; subst.
    destruct (String.eqb (NRC.Type_ a) (NRC.Type_ c)) eqn:E.
    + apply String.eqb_eq in E. exfalso. apply Ha. rewrite E.
      apply in_map, Hin.
    + apply IH; assumption.
Qed.

Lemma filterOutLoop_elems (l : list NRC.t) (acc : Slice.t NRC.t) (T : string) :
  Slice.elems (filterOutLoop acc l T)
  = Slice.elems acc ++ filter (otherType T) l.
Proof.
  revert acc. induction l as [|c l IH]; intros acc; cbn.
  - rewrite app_nil_r. reflexivity.
  - unfold otherType at 1.
    destruct (String.eqb (NRC.Type_ c) T); cbn [negb].
    + apply IH.
    + rewrite IH. cbn. rewrite <- app_assoc. reflexivity.
Qed.

Lemma filterOutCondition_elems (conds : Slice.t NRC.t) (T : string) :
  Slice.elems (filterOutCondition conds T)
  = filter (otherType T) (Slice.elems conds).
Proof. unfold filterOutCondition. rewrite filterOutLoop_elems. reflexivity. Qed.

Lemma filter_otherType_types (l : list NRC.t) (T : string) :
  ~ In T (map NRC.Type_ (filter (otherType T) l)).
Proof.
  rewrite in_map_iff. intros (c & Ec & Hin).
  apply filter_In in Hin. destruct Hin as [_ Hc].
  unfold otherType in Hc. rewrite Ec, String.eqb_refl in Hc. discriminate.
Qed.

Lemma filter_types_NoDup (l : list NRC.t) (p : NRC.t -> bool) :
  NoDup (map NRC.Type_ l) -> NoDup (map NRC.Type_ (filter p l)).
Proof.
  induction l as [|c l IH]; cbn; [ auto | ].
  intros Hnd. inversion Hnd as [|? ? Hc Hnd']; subst.
  destruct (p c); cbn; [ | auto ].
  constructor; [ | auto ].
  intros Hin. apply Hc. rewrite in_map_iff in *.
  destruct Hin as (x & Ex & Hx). apply filter_In in Hx. exists x. tauto.
Qed.

Lemma findCondition_filter_other (l : list NRC.t) (T T' : string) :
  T' <> T ->
  findCondition (filter (otherType T) l) T' = findCondition l T'.
Proof.
  intros Hne. induction l as [|c l IH]; cbn; [ reflexivity | ].
  unfold otherType at 1.
  destruct (String.eqb (NRC.Type_ c) T) eqn:E; cbn [negb].
  - apply String.eqb_eq in E.
    destruct (String.eqb (NRC.Type_ c) T') eqn:E'; [ | exact IH ].
    apply String.eqb_eq in E'. congruence.
  - cbn. destruct (String.eqb (NRC.Type_ c) T'); [ reflexivity | exact IH ].
Qed.

Section SetCondition.

Context {H S : Type} `{GoSlice H S}.

Lemma replaced_get (st : NRS.t S) (c : NRC.t) :
  getNodeRolloutCondition (replaced st c) (NRC.Type_ c) = Some c.
Proof.
  unfold getNodeRolloutCondition, replaced. cbn.
  rewrite filterOutCondition_elems, findCondition_app.
  destruct (findCondition _ _) as [x|] eqn:E.
  - apply findCondition_Some in E. destruct E as [Hin Ex].
    exfalso. apply (filter_otherType_types (Slice.elems (NRS.Conditions st))
                      (NRC.Type_ c)).
    rewrite <- Ex at 1. apply in_map, Hin.
  - cbn. rewrite String.eqb_refl. reflexivity.
Qed.

Lemma replaced_get_other (st : NRS.t S) (c : NRC.t) (T' : string) :
  T' <> NRC.Type_ c ->
  getNodeRolloutCondition (replaced st c) T' = getNodeRolloutCondition st T'.
Proof.
  intros Hne. unfold getNodeRolloutCondition, replaced. cbn.
  rewrite filterOutCondition_elems, findCondition_app.
  rewrite findCondition_filter_other by exact Hne.
  destruct (findCondition _ T'); [ reflexivity | ].
  cbn. destruct (String.eqb (NRC.Type_ c) T') eqn:E; [ | reflexivity ].
  apply String.eqb_eq in E. congruence.
Qed.

Lemma replaced_types (st : NRS.t S) (c : NRC.t) :
  typesOf (replaced st c)
  = map NRC.Type_ (filter (otherType (NRC.Type_ c))
                     (Slice.elems (NRS.Conditions st)))
    ++ [NRC.Type_ c].
Proof.
  unfold typesOf, replaced. cbn.
  rewrite filterOutCondition_elems, map_app. reflexivity.
Qed.

Lemma replaced_count (st : NRS.t S) (c : NRC.t) :
  countType (replaced st c) (NRC.Type_ c) = 1.
Proof.
  unfold countType. rewrite replaced_types, count_occ_app.
  rewrite (proj1 (count_occ_not_In string_dec _ _))
    by apply filter_otherType_types.
  cbn. destruct (string_dec _ _); [ reflexivity | contradiction ].
Qed.

Lemma replaced_onePerType (st : NRS.t S) (c : NRC.t) :
  onePerType st -> onePerType (replaced st c).
Proof.
  unfold onePerType. intros Hnd. rewrite replaced_types.
  apply NoDup_app.
  - apply filter_types_NoDup, Hnd.
  - constructor; [ intros [] | constructor ].
  - intros x Hx [<- | []]. exact (filter_otherType_types _ _ Hx).
Qed.

(** The three cases of [setNodeRolloutCondition] on an existing entry. *)
Lemma setNodeRolloutCondition_cases (st : NRS.t S) (cur c : NRC.t) :
  getNodeRolloutCondition st (NRC.Type_ c) = Some cur ->
  setNodeRolloutCondition st c
  = if ConditionStatus_eqb (NRC.Status cur) (NRC.Status c)
    then
      if String.eqb (NRC.Reason cur) (NRC.Reason c) then st
      else replaced st (set_LastTransitionTime c (NRC.LastTransitionTime cur))
    else replaced st c.
Proof.
  intros Hg. unfold setNodeRolloutCondition. rewrite Hg.
  destruct (ConditionStatus_eqb _ _); cbn [andb]; [ | reflexivity ].
  destruct (String.eqb _ _); reflexivity.
Qed.

Lemma setNodeRolloutCondition_absent (st : NRS.t S) (c : NRC.t) :
  getNodeRolloutCondition st (NRC.Type_ c) = None ->
  setNodeRolloutCondition st c = replaced st c.
Proof. intros Hg. unfold setNodeRolloutCondition. rewrite Hg. reflexivity. Qed.

End SetCondition.

Lemma ConditionStatus_eqb_eq (a b : ConditionStatus) :
  ConditionStatus_eqb a b = true <-> a = b.
Proof. destruct a, b; cbn; split; congruence. Qed.

(** C4.  Let [old] be the entry of the new condition's type that the status
    holds (the one [getNodeRolloutCondition] finds).  With the same status
    and reason the whole status is left as it is, so the entry keeps its
    message and both timestamps.  With the same status and another reason the
    entry of that type becomes the new condition, with the new
    lastUpdateTime, and with the old lastTransitionTime.  With another status
    the entry becomes the new condition as it is, both timestamps new.  The
    entries of the other types are the same in all cases. *)
Theorem setNodeRolloutCondition_timestamps {S : Type} (st : NRS.t S)
    (old new : NRC.t) :
  getNodeRolloutCondition st (NRC.Type_ new) = Some old ->
  (NRC.Status old = NRC.Status new -> NRC.Reason old = NRC.Reason new ->
   setNodeRolloutCondition st new = st) /\
  (NRC.Status old = NRC.Status new -> NRC.Reason old <> NRC.Reason new ->
   getNodeRolloutCondition (setNodeRolloutCondition st new) (NRC.Type_ new)
   = Some (NRC.mk (NRC.Type_ new) (NRC.Status new) (NRC.LastUpdateTime new)
             (NRC.LastTransitionTime old) (NRC.Reason new) (NRC.Message new)))
  /\
  (NRC.Status old <> NRC.Status new ->
   getNodeRolloutCondition (setNodeRolloutCondition st new) (NRC.Type_ new)
   = Some new) /\
  (forall T, T <> NRC.Type_ new ->
   getNodeRolloutCondition (setNodeRolloutCondition st new) T
   = getNodeRolloutCondition st T).
Proof.
  intros Hg. rewrite (setNodeRolloutCondition_cases st old new Hg).
  repeat split.
  - intros Es Er.
    rewrite (proj2 (ConditionStatus_eqb_eq _ _) Es).
    rewrite (proj2 (String.eqb_eq _ _) Er). reflexivity.
  - intros Es Er.
    rewrite (proj2 (ConditionStatus_eqb_eq _ _) Es).
    rewrite (proj2 (String.eqb_neq _ _) Er).
    apply (replaced_get st
             (set_LastTransitionTime new (NRC.LastTransitionTime old))).
  - intros Es.
    destruct (ConditionStatus_eqb _ _) eqn:E.
    + apply ConditionStatus_eqb_eq in E. contradiction.
    + apply replaced_get.
  - intros T HT.
    destruct (ConditionStatus_eqb _ _);
      [ destruct (String.eqb _ _); [ reflexivity | ] | ].
    + apply (replaced_get_other st
               (set_LastTransitionTime new (NRC.LastTransitionTime old))).
      exact HT.
    + apply replaced_get_other. exact HT.
Qed.

(** With at most one entry per type, every entry of the new condition's
    type is the one the lookup finds. *)
Lemma existing_entry_is_found {S : Type} (st : NRS.t S) (old new : NRC.t) :
  onePerType st ->
  In old (Slice.elems (NRS.Conditions st)) ->
  NRC.Type_ old = NRC.Type_ new ->
  getNodeRolloutCondition st (NRC.Type_ new) = Some old.
Proof.
  intros Hnd Hin <-. apply findCondition_unique; assumption.
Qed.

Lemma setNodeRolloutCondition_timestamps_witness :
  setNodeRolloutCondition statusWithA sameAgain = statusWithA /\
  getNodeRolloutCondition (setNodeRolloutCondition statusWithA otherReason)
    ReplacementsCreatedType
  = Some (NRC.mk ReplacementsCreatedType ConditionTrue 9%Z 5%Z "ReasonB" "") /\
  getNodeRolloutCondition (setNodeRolloutCondition statusWithA otherStatus)
    ReplacementsCreatedType
  = Some otherStatus.
Proof.
  split; [ | split ].
  - apply (proj1 (setNodeRolloutCondition_timestamps statusWithA conditionA
                    sameAgain eq_refl)); reflexivity.
  - apply (proj1 (proj2 (setNodeRolloutCondition_timestamps statusWithA
                           conditionA otherReason eq_refl)));
      [ reflexivity | discriminate ].
  - apply (proj1 (proj2 (proj2 (setNodeRolloutCondition_timestamps statusWithA
                                  conditionA otherStatus eq_refl))));
      discriminate.
Defined.

(** C8.  Applying a condition to a status with at most one entry per type
    leaves at most one entry per type and exactly one of the applied type;
    and whatever status an [UpdateStatus] merge ends with, also on an error,
    has at most one entry per type when the instance's status has. *)
Theorem conditions_one_per_type {H S : Type} `{GoSlice H S} :
  (forall (st : NRS.t S) (c : NRC.t),
     onePerType st ->
     onePerType (setNodeRolloutCondition st c) /\
     countType (setNodeRolloutCondition st c) (NRC.Type_ c) = 1) /\
  (forall (w w' : World) (h h' : H) (i : NodeRollout.t S) (r : Result.t S)
          (m : NRS.t S) (e : error),
     onePerType (NodeRollout.Status i) ->
     mergeStatus w h i r = (w', h', m, e) ->
     onePerType m).
Proof.
  assert (Hset : forall (st : NRS.t S) (c : NRC.t),
             onePerType st ->
             onePerType (setNodeRolloutCondition st c) /\
             countType (setNodeRolloutCondition st c) (NRC.Type_ c) = 1).
  { intros st c Hnd.
    destruct (getNodeRolloutCondition st (NRC.Type_ c)) as [cur|] eqn:Hg.
    - rewrite (setNodeRolloutCondition_cases st cur c Hg).
      assert (Hkeep : onePerType st /\ countType st (NRC.Type_ c) = 1).
      { split; [ exact Hnd | ].
        apply findCondition_Some in Hg. destruct Hg as [Hin Et].
        assert (Hc : In (NRC.Type_ c) (typesOf st)).
        { rewrite <- Et. apply in_map, Hin. }
        apply (count_occ_In string_dec) in Hc.
        pose proof (proj1 (NoDup_count_occ string_dec (typesOf st)) Hnd
                      (NRC.Type_ c)) as Hle.
        unfold countType. lia. }
      assert (Hrep : forall c', NRC.Type_ c' = NRC.Type_ c ->
                 onePerType (replaced st c') /\
                 countType (replaced st c') (NRC.Type_ c) = 1).
      { intros c' Ec'. split; [ apply replaced_onePerType, Hnd | ].
        rewrite <- Ec'. apply replaced_count. }
      destruct (ConditionStatus_eqb _ _);
        [ destruct (String.eqb _ _); [ exact Hkeep | ] | ];
        apply Hrep; reflexivity.
    - rewrite (setNodeRolloutCondition_absent st c Hg).
      split; [ apply replaced_onePerType, Hnd | apply replaced_count ]. }
  split; [ exact Hset | ].
  intros w w' h h' i r m e Hnd.
  assert (Hconds : forall st st' : NRS.t S,
             NRS.Conditions st' = NRS.Conditions st ->
             onePerType st -> onePerType st').
  { unfold onePerType, typesOf. intros st st' ->. auto. }
  unfold mergeStatus.
  destruct (setPhase_frame (NodeRollout.Status i) r)
    as (_ & _ & _ & _ & _ & _ & C0).
  destruct (setReplacementsCreated _ r) as [st1 e1] eqn:E1.
  apply setReplacementsCreated_frame in E1.
  destruct E1 as (_ & _ & _ & _ & _ & C1).
  assert (N1 : onePerType st1).
  { apply (Hconds (NodeRollout.Status i)); [ congruence | exact Hnd ]. }
  destruct e1 as [x|]; [ intros [= <- <- <- <-]; exact N1 | ].
  destruct (setReplacementsCompleted h st1 r) as [h2 st2] eqn:E2.
  apply setReplacementsCompleted_frame in E2.
  destruct E2 as (_ & _ & _ & _ & _ & C2).
  destruct (setCompletionTimestamp st2 r) as [st3 e3] eqn:E3.
  apply setCompletionTimestamp_frame in E3.
  destruct E3 as (_ & _ & _ & _ & _ & _ & C3).
  assert (N3 : onePerType st3).
  { apply (Hconds st1); [ congruence | exact N1 ]. }
  destruct e3 as [x|]; [ intros [= <- <- <- <-]; exact N3 | ].
  assert (N4 : forall w4 st4 e4,
             setCreatedCondition w st3 r = (w4, st4, e4) -> onePerType st4).
  { unfold setCreatedCondition. intros w4 st4 e4.
    destruct (isSome _ && _); [ intros [= <- <- <-]; exact N3 | ].
    destruct (negb _); [ | intros [= <- <- <-]; exact N3 ].
    destruct (createdCondition w r) as [c w1]. intros [= <- <- <-].
    apply Hset, N3. }
  destruct (setCreatedCondition w st3 r) as [[w4 st4] e4] eqn:E4.
  specialize (N4 _ _ _ eq_refl).
  destruct e4 as [x|]; [ intros [= <- <- <- <-]; exact N4 | ].
  unfold setInProgressCondition.
  destruct (isSome _ && _); [ intros [= <- <- <- <-]; exact N4 | ].
  destruct (negb _); [ | intros [= <- <- <- <-]; exact N4 ].
  destruct (inProgressCondition w4 r) as [c w1]. intros [= <- <- <- <-].
  apply Hset, N4.
Qed.

Lemma conditions_one_per_type_witness :
  onePerType (setNodeRolloutCondition statusWithA otherReason) /\
  countType (setNodeRolloutCondition statusWithA otherReason)
    ReplacementsCreatedType = 1 /\
  onePerType
    (snd (fst (mergeStatus (acceptingWorld (exampleRollout statusWithA)) tt
                 (exampleRollout statusWithA) inProgressCompleted))).
Proof.
  assert (Hnd : onePerType statusWithA).
  { repeat constructor. intros []. }
  pose proof (@conditions_one_per_type unit (Slice.t string) ValueSlice)
    as [Hset Hmerge].
  destruct (Hset statusWithA otherReason Hnd) as [H1 H2].
  split; [ exact H1 | split; [ exact H2 | ] ].
  eapply (Hmerge (acceptingWorld (exampleRollout statusWithA)) _ tt _
            (exampleRollout statusWithA) inProgressCompleted _ _ Hnd).
  reflexivity.
Defined.

(** ** The two condition setters *)

Section ConditionSetters.

Context {H S : Type} `{GoSlice H S}.

Lemma setCreatedCondition_malformed (w : World) (st : NRS.t S)
    (r : Result.t S) :
  createdMalformed r = true ->
  setCreatedCondition w st r
  = (w, st,
     Some "if ReplacementsCreatedError is set, ReplacementsCreatedReason must also be set").
Proof.
  unfold createdMalformed, setCreatedCondition. intros ->. reflexivity.
Qed.

Lemma setInProgressCondition_malformed (w : World) (st : NRS.t S)
    (r : Result.t S) :
  inProgressMalformed r = true ->
  setInProgressCondition w st r
  = (w, st,
     Some "if ReplacementsInProgressError is set, ReplacementsInProgressReason must also be set").
Proof.
  unfold inProgressMalformed, setInProgressCondition. intros ->. reflexivity.
Qed.

Lemma setCreatedCondition_applies (w : World) (st : NRS.t S)
    (r : Result.t S) :
  Result.ReplacementsCreatedReason r <> "" ->
  setCreatedCondition w st r
  = (snd (Now (snd (Now w))),
     setNodeRolloutCondition st
       (NRC.mk ReplacementsCreatedType
          (if isSome (Result.ReplacementsCreatedError r)
           then ConditionFalse else ConditionTrue)
          (fst (Now w)) (fst (Now (snd (Now w))))
          (Result.ReplacementsCreatedReason r)
          (errorText (Result.ReplacementsCreatedError r))),
     None).
Proof.
  intros Hr. apply String.eqb_neq in Hr.
  unfold setCreatedCondition, createdCondition, newNodeRolloutCondition.
  rewrite Hr, andb_false_r. cbn [negb].
  destruct (Result.ReplacementsCreatedError r); reflexivity.
Qed.

Lemma setInProgressCondition_applies (w : World) (st : NRS.t S)
    (r : Result.t S) :
  Result.ReplacementsInProgressReason r <> "" ->
  setInProgressCondition w st r
  = (snd (Now (snd (Now w))),
     setNodeRolloutCondition st
       (NRC.mk ReplacementsInProgressType
          (if isSome (Result.ReplacementsInProgressError r)
              || String.eqb (Result.ReplacementsInProgressReason r)
                   "ReplacementsCompleted"
           then ConditionFalse else ConditionTrue)
          (fst (Now w)) (fst (Now (snd (Now w))))
          (Result.ReplacementsInProgressReason r)
          (errorText (Result.ReplacementsInProgressError r))),
     None).
Proof.
  intros Hr. apply String.eqb_neq in Hr.
  unfold setInProgressCondition, inProgressCondition, newNodeRolloutCondition.
  rewrite Hr, andb_false_r. cbn [negb].
  destruct (Result.ReplacementsInProgressError r);
    destruct (String.eqb _ "ReplacementsCompleted"); reflexivity.
Qed.

(** The merge up to the condition setters: it stops on one of the two
    conflicts, with that error and the world untouched, or reaches the
    setters with the world untouched. *)
Lemma mergeStatus_prefix (w : World) (h : H) (i : NodeRollout.t S)
    (r : Result.t S) :
  (exists h' st' e, mergeStatus w h i r = (w, h', st', Some e) /\
                    createdConflict i r || timestampConflict i r = true) \/
  (createdConflict i r = false /\ timestampConflict i r = false /\
   exists h' st3,
     mergeStatus w h i r
     = (let '(w4, st4, e4) := setCreatedCondition w st3 r in
        match e4 with
        | Some _ => (w4, h', st4, e4)
        | None =>
            let '(w5, st5, e5) := setInProgressCondition w4 st4 r in
            (w5, h', st5, e5)
        end)).
Proof.
  unfold mergeStatus, createdConflict, timestampConflict.
  destruct (setPhase_frame (NodeRollout.Status i) r)
    as (Ec & _ & _ & _ & _ & Et & _).
  destruct (negb (isNil (NRS.ReplacementsCreated (NodeRollout.Status i)))
            && negb (isNil (Result.ReplacementsCreated r))) eqn:Ecc.
  - left. apply andb_true_iff in Ecc. destruct Ecc as [A B].
    apply negb_true_iff in A, B.
    rewrite setReplacementsCreated_conflict by (rewrite ?Ec; assumption).
    eexists _, _, _. split; reflexivity.
  - destruct (setReplacementsCreated_passes
                (setPhase (NodeRollout.Status i) r) r) as [st1 E1].
    { rewrite Ec. apply andb_false_iff in Ecc.
      destruct Ecc as [A|A]; apply negb_false_iff in A; auto. }
    rewrite E1. apply setReplacementsCreated_frame in E1.
    destruct E1 as (_ & _ & _ & _ & Et1 & _).
    destruct (setReplacementsCompleted h st1 r) as [h2 st2] eqn:E2.
    apply setReplacementsCompleted_frame in E2.
    destruct E2 as (_ & _ & _ & _ & Et2 & _).
    assert (Et' : NRS.CompletionTimestamp st2
                  = NRS.CompletionTimestamp (NodeRollout.Status i))
      by congruence.
    destruct (isSome (NRS.CompletionTimestamp (NodeRollout.Status i))
              && isSome (Result.CompletionTimestamp r)) eqn:Etc.
    + left. apply andb_true_iff in Etc. destruct Etc as [A B].
      rewrite setCompletionTimestamp_conflict by (rewrite ?Et'; assumption).
      eexists _, _, _. split; reflexivity.
    + right. split; [ reflexivity | split; [ reflexivity | ] ].
      destruct (setCompletionTimestamp_passes st2 r) as [st3 E3].
      { rewrite Et'. apply andb_false_iff in Etc. exact Etc. }
      rewrite E3. exists h2, st3.
      destruct (setCreatedCondition w st3 r) as [[w4 st4] [e4|]];
        [ reflexivity | ].
      destruct (setInProgressCondition w4 st4 r) as [[w5 st5] e5].
      reflexivity.
Qed.

End ConditionSetters.

Section Malformed.

Context {H S : Type} `{GoSlice H S}.


Lemma UpdateStatus_error (w w' : World) (h h' : H) (i : NodeRollout.t S)
    (r : Result.t S) (m : NRS.t S) (e : string) :
  mergeStatus w h i r = (w', h', m, Some e) ->
  UpdateStatus w h i r = (w', h', Some e).
Proof. intros Hm. unfold UpdateStatus. rewrite Hm. reflexivity. Qed.



End Malformed.




(** The status tests on the Created condition: an error with its reason
    gives a False condition that carries both. *)
Example test_created_error_with_reason :
  let '(w, _, e) :=
    UpdateStatus (acceptingWorld (exampleRollout emptyStatus)) tt
      (exampleRollout emptyStatus) createdErrorWithReason in
  e = None /\
  NRS.Conditions (NodeRollout.Status (persisted w))
  = Some [NRC.mk ReplacementsCreatedType ConditionFalse 0%Z 1%Z
            "CompletedErrorReason" "error creating replacements"].
Proof. split; reflexivity. Qed.

(** ** The admission gate *)

Module HandlerProofs.
Import Handler HandlerFixtures.








(** The three contexts of the test of [shouldProcess]. *)
Example test_higher_priority :
  shouldProcess nodeReplacement [nodeReplacement; highPriorityNR]
  = (false, higherPriorityReason "high-priority").
Proof. reflexivity. Qed.

Example test_in_progress :
  shouldProcess nodeReplacement [nodeReplacement; inProgressNR]
  = (false, inProgressReason "in-progress").
Proof. reflexivity. Qed.

Example test_should_proceed :
  shouldProcess nodeReplacement [nodeReplacement] = (true, "").
Proof. reflexivity. Qed.

(** Section 8 of the spec: priorities A:0 and B:10. *)
Example spec_priorities_A_B :
  let A := mkNodeReplacement "A" 0 ReplacementPhaseNew in
  let B := mkNodeReplacement "B" 10 ReplacementPhaseNew in
  shouldProcess A [A; B] = (false, higherPriorityReason "B") /\
  shouldProcess B [A; B] = (true, "").
Proof. split; reflexivity. Qed.

(** One in progress blocks also a candidate of a higher priority. *)
Example in_progress_blocks_higher_priority :
  shouldProcess highPriorityNR [nodeReplacement; inProgressNR; highPriorityNR]
  = (false, inProgressReason "in-progress").
Proof. reflexivity. Qed.

End HandlerProofs.

(** ** Pod classification *)

Module ClassifyProofs.
Import Handler HandlerFixtures.


(** The test of [processPods]: three pods on the node, pod-2 owned by a
    DaemonSet, a fourth pod elsewhere. *)
Example test_processPods :
  processPods "example-worker-1" clusterPods
  = (["pod-1"; "pod-2"; "pod-3"],
     [mkPodReason "pod-2" "pod owned by a DaemonSet"]).
Proof. reflexivity. Qed.


(** Section 4.3 of the spec read by its words gives two names on these
    pods, where the test asks for the three of them. *)
Example spec_reading_on_test_pods :
  fst (classifyPods_spec "example-worker-1" clusterPods) = ["pod-1"; "pod-3"] /\
  snd (classifyPods_spec "example-worker-1" clusterPods)
  = snd (processPods "example-worker-1" clusterPods) /\
  List.length (fst (classifyPods_spec "example-worker-1" clusterPods))
  <> List.length ["pod-1"; "pod-2"; "pod-3"].
Proof. repeat split. discriminate. Qed.

End ClassifyProofs.

(** ** The instance is left alone: slices over a flat memory *)

Module FlatProofs.
Import Flat.

Lemma appendSlice_outside (h0 h h' : Heap) (target m m' : slice)
    (x : string) :
  brk h0 <= brk h -> tracks h0 target m -> agreeOutside h0 h target ->
  appendSlice h m x = (h', m') ->
  brk h0 <= brk h' /\ tracks h0 target m' /\ agreeOutside h0 h' target.
Proof.
  intros Hb Ht Ha. unfold appendSlice.
  destruct (Nat.ltb (hlen (headerOf m)) (hcap (headerOf m))) eqn:E.
  - apply Nat.ltb_lt in E. intros [= <- <-].
    unfold tracks in *. cbn [headerOf ptr hlen hcap brk cells].
    split; [ exact Hb | split ].
    + destruct Ht as [(P & C & L) | F]; [ left | right; exact F ].
      repeat split; [ exact P | exact C | lia ].
    + intros a Ha1 Ha2. cbn. unfold store.
      destruct (Nat.eqb a (ptr (headerOf m) + hlen (headerOf m))) eqn:Ea;
        [ | apply Ha; assumption ].
      apply Nat.eqb_eq in Ea. exfalso.
      destruct Ht as [(P & C & L) | F]; [ | lia ].
      apply Ha2. unfold spare. lia.
  - intros [= <- <-].
    unfold tracks in *. cbn [headerOf ptr hlen hcap brk cells].
    split; [ lia | split; [ right; exact Hb | ] ].
    intros a Ha1 Ha2. cbn. unfold store, copyCells.
    destruct (Nat.eqb a (brk h + hlen (headerOf m))) eqn:Ea;
      [ apply Nat.eqb_eq in Ea; lia | ].
    destruct (Nat.leb (brk h) a) eqn:El;
      [ apply Nat.leb_le in El; lia | ].
    cbn. apply Ha; assumption.
Qed.

Lemma appendIfMissingElement_outside (h0 h h' : Heap) (target m m' : slice)
    (x : string) :
  brk h0 <= brk h -> tracks h0 target m -> agreeOutside h0 h target ->
  appendIfMissingElement h m x = (h', m') ->
  brk h0 <= brk h' /\ tracks h0 target m' /\ agreeOutside h0 h' target.
Proof.
  intros Hb Ht Ha. unfold appendIfMissingElement.
  destruct (containsAt h m x _).
  - intros [= <- <-]. auto.
  - apply appendSlice_outside; assumption.
Qed.

Lemma appendIfMissingLoop_outside (h0 : Heap) (target str : slice)
    (ks : list nat) :
  forall (h h' : Heap) (m m' : slice),
    brk h0 <= brk h -> tracks h0 target m -> agreeOutside h0 h target ->
    appendIfMissingLoop h m str ks = (h', m') ->
    brk h0 <= brk h' /\ tracks h0 target m' /\ agreeOutside h0 h' target.
Proof.
  induction ks as [|k ks IH]; intros h h' m m' Hb Ht Ha; cbn.
  - intros [= <- <-]. auto.
  - destruct (appendIfMissingElement h m (index h str k)) as [h1 m1] eqn:E.
    destruct (appendIfMissingElement_outside h0 h h1 target m m1 _ Hb Ht Ha E)
      as (Hb1 & Ht1 & Ha1).
    apply IH; assumption.
Qed.

Lemma agreeOutside_refl (h : Heap) (target : slice) : agreeOutside h h target.
Proof. intros a _ _. reflexivity. Qed.

Lemma tracks_refl (h : Heap) (target : slice) : tracks h target target.
Proof. left. split; [ reflexivity | split; [ reflexivity | apply Nat.le_refl ] ]. Qed.

(** [setReplacementsCompleted] writes, if at all, into the spare capacity of
    the stored ReplacementsCompleted or into cells that were free. *)
Lemma setReplacementsCompleted_outside (h h' : Heap) (st st' : NRS.t slice)
    (r : Result.t slice) :
  setReplacementsCompleted h st r = (h', st') ->
  agreeOutside h h' (NRS.ReplacementsCompleted st).
Proof.
  unfold setReplacementsCompleted.
  destruct (negb (isNil (NRS.ReplacementsCompleted st)) && _).
  - destruct (appendIfMissingStr h _ _) as [h1 merged] eqn:E.
    unfold appendIfMissingStr in E.
    apply (appendIfMissingLoop_outside h (NRS.ReplacementsCompleted st)) in E;
      [ | apply Nat.le_refl | apply tracks_refl | apply agreeOutside_refl ].
    destruct E as (_ & _ & Ha).
    destruct (isNil _ && _); intros [= <- <-]; exact Ha.
  - destruct (isNil _ && _); intros [= <- <-]; apply agreeOutside_refl.
Qed.

Lemma loadSlice_outside (h h' : Heap) (target s : slice) :
  agreeOutside h h' target -> clearOf h target s ->
  loadSlice h' s = loadSlice h s.
Proof.
  intros Ha Hc. destruct s as [hd|]; [ | reflexivity ].
  cbn. f_equal. apply map_ext_in. intros a Hin.
  apply in_seq in Hin. destruct (Hc a) as [A B]; [ exact Hin | ].
  apply Ha; assumption.
Qed.

Lemma viewStatus_outside (h h' : Heap) (st : NRS.t slice) :
  agreeOutside h h' (NRS.ReplacementsCompleted st) -> separated h st ->
  viewStatus h' st = viewStatus h st.
Proof.
  intros Ha (S1 & S2 & S3). unfold viewStatus. cbn [load FlatSlice].
  rewrite (loadSlice_outside h h' _ _ Ha S1).
  rewrite (loadSlice_outside h h' _ _ Ha S2).
  rewrite (loadSlice_outside h h' _ _ Ha S3).
  reflexivity.
Qed.

(** The memory a merge ends with: the one it began with, or the one
    [setReplacementsCompleted] left, called on a status that holds the
    instance's ReplacementsCompleted. *)
Lemma mergeStatus_memory (w w' : World) (h h' : Heap)
    (i : NodeRollout.t slice) (r : Result.t slice) (m : NRS.t slice)
    (e : error) :
  mergeStatus w h i r = (w', h', m, e) ->
  h' = h \/
  exists st1 st2,
    NRS.ReplacementsCompleted st1
    = NRS.ReplacementsCompleted (NodeRollout.Status i) /\
    setReplacementsCompleted h st1 r = (h', st2).
Proof.
  unfold mergeStatus.
  destruct (setPhase_frame (NodeRollout.Status i) r) as (_ & _ & P & _).
  destruct (setReplacementsCreated _ r) as [st1 e1] eqn:E1.
  apply setReplacementsCreated_frame in E1. destruct E1 as (_ & C1 & _).
  destruct e1 as [x|]; [ intros [= <- <- <- <-]; left; reflexivity | ].
  destruct (setReplacementsCompleted h st1 r) as [h2 st2] eqn:E2.
  assert (Hh : forall a b c, (a, h2, b, c) = (w', h', m, e) ->
               h' = h \/
               exists st1 st2,
                 NRS.ReplacementsCompleted st1
                 = NRS.ReplacementsCompleted (NodeRollout.Status i) /\
                 setReplacementsCompleted h st1 r = (h', st2)).
  { intros a b c [= _ <- _ _]. right. exists st1, st2.
    split; [ congruence | exact E2 ]. }
  destruct (setCompletionTimestamp st2 r) as [st3 [e3|]]; [ apply Hh | ].
  destruct (setCreatedCondition w st3 r) as [[w4 st4] [e4|]]; [ apply Hh | ].
  destruct (setInProgressCondition w4 st4 r) as [[w5 st5] e5]. apply Hh.
Qed.

Lemma UpdateStatus_memory (w : World) (h : Heap) (i : NodeRollout.t slice)
    (r : Result.t slice) :
  exists w1 m e1,
    mergeStatus w h i r = (w1, snd (fst (UpdateStatus w h i r)), m, e1).
Proof.
  unfold UpdateStatus.
  destruct (mergeStatus w h i r) as [[[w1 h1] m] [x|]]; cbn.
  - eexists _, _, _. reflexivity.
  - destruct (negb _); [ destruct (Update w1 _) as [w2 [x|]] | ]; cbn;
      eexists _, _, _; reflexivity.
Qed.

(** Under the separation the contents of the instance's status are the
    same in the memory [UpdateStatus] leaves as in the one it found. *)
Lemma instance_contents_kept (w : World) (h : Heap)
    (i : NodeRollout.t slice) (r : Result.t slice) :
  separated h (NodeRollout.Status i) ->
  viewStatus (snd (fst (UpdateStatus w h i r))) (NodeRollout.Status i)
  = viewStatus h (NodeRollout.Status i).
Proof.
  intros Hsep.
  destruct (UpdateStatus_memory w h i r) as (w1 & m & e1 & Hm).
  apply mergeStatus_memory in Hm.
  destruct Hm as [-> | (st1 & st2 & Ec & E2)]; [ reflexivity | ].
  apply setReplacementsCompleted_outside in E2. rewrite Ec in E2.
  apply viewStatus_outside; assumption.
Qed.

(** C9, as amended.  Over the flat memory, where [append] writes into the
    spare capacity of the array it is given: when the three string slices of
    the instance's status show allocated cells outside the spare capacity of
    its ReplacementsCompleted, the contents of the instance's status are the
    same after [UpdateStatus] as before, whatever the result and whether the
    call wrote to the store, skipped the write or failed. *)
Theorem UpdateStatus_leaves_instance (w : World) (h : Heap)
    (i : NodeRollout.t slice) (r : Result.t slice) :
  separated h (NodeRollout.Status i) ->
  viewStatus (snd (fst (UpdateStatus w h i r))) (NodeRollout.Status i)
  = viewStatus h (NodeRollout.Status i).
Proof. apply instance_contents_kept. Qed.

Lemma UpdateStatus_leaves_instance_witness :
  viewStatus
    (snd (fst (UpdateStatus (acceptingWorld (exampleRollout emptyStatus))
                 apartHeap apartInstance apartResult)))
    (NodeRollout.Status apartInstance)
  = viewStatus apartHeap (NodeRollout.Status apartInstance).
Proof.
  apply (UpdateStatus_leaves_instance
           (acceptingWorld (exampleRollout emptyStatus)) apartHeap
           apartInstance apartResult).
  unfold separated, clearOf, visible, spare. cbn.
  repeat split; try lia; tauto.
Defined.

(** In that run the new name was written in place, behind the two stored
    names, and the store received the three names. *)
Example apart_run :
  let '(w, h, e) :=
    UpdateStatus (acceptingWorld (exampleRollout emptyStatus)) apartHeap
      apartInstance apartResult in
  e = None /\ cells h 6 = "w2" /\ brk h = 9 /\
  NRS.ReplacementsCompleted (NodeRollout.Status (persisted w))
  = Some ["m1"; "w1"; "w2"] /\
  NRS.ReplacementsCompletedCount (NodeRollout.Status (persisted w)) = 3%Z.
Proof. repeat split. Qed.

(** C9 as stated fails when the instance's ReplacementsCompleted is the
    front of the array its ReplacementsCreated shows: the name appended in
    place lands in a cell ReplacementsCreated shows, and the caller's
    instance reads other names after the call than before. *)
Lemma shared_array_instance_changed :
  let h' :=
    snd (fst (UpdateStatus (acceptingWorld (exampleRollout emptyStatus))
                sharedHeap sharedInstance completesW2)) in
  NRS.ReplacementsCreated
    (viewStatus sharedHeap (NodeRollout.Status sharedInstance))
  = Some ["m1"; "w1"; "m2"; "w2"] /\
  NRS.ReplacementsCreated (viewStatus h' (NodeRollout.Status sharedInstance))
  = Some ["m1"; "w1"; "w2"; "w2"] /\
  viewStatus h' (NodeRollout.Status sharedInstance)
  <> viewStatus sharedHeap (NodeRollout.Status sharedInstance).
Proof.
  cbn zeta. split; [ reflexivity | split; [ reflexivity | ] ].
  intros E.
  apply (f_equal NRS.ReplacementsCreated) in E. vm_compute in E.
  discriminate.
Qed.

End FlatProofs.

(** ** The flat memory against the values

    When the slices of the instance and of the result are clear of the spare
    capacity of the stored ReplacementsCompleted, the run over the flat
    memory hands to the store and returns what the run on the contents
    does. *)

Module FlatRefinement.
Import Flat FlatProofs.

Lemma map_seq_shift (f g : nat -> string) (n : nat) :
  forall a b,
    (forall j, j < n -> f (a + j) = g (b + j)) ->
    map f (seq a n) = map g (seq b n).
Proof.
  induction n as [|n IH]; intros a b Hfg; cbn; [ reflexivity | ].
  f_equal.
  - specialize (Hfg 0 (Nat.lt_0_succ n)). rewrite !Nat.add_0_r in Hfg.
    exact Hfg.
  - apply IH. intros j Hj. specialize (Hfg (S j) (proj1 (Nat.succ_lt_mono _ _) Hj)).
    rewrite !Nat.add_succ_r in Hfg. exact Hfg.
Qed.

Lemma loadSlice_length (h : Heap) (s : slice) :
  List.length (Slice.elems (loadSlice h s)) = hlen (headerOf s).
Proof.
  destruct s as [hd|]; cbn; [ | reflexivity ].
  rewrite length_map, length_seq. reflexivity.
Qed.

Lemma loadSlice_Some (h : Heap) (s : slice) :
  isSome s = true -> loadSlice h s = Some (Slice.elems (loadSlice h s)).
Proof. destruct s; [ reflexivity | discriminate ]. Qed.

Lemma FlatSlice_elements (h : Heap) (s : slice) :
  map (index h s) (seq 0 (len s)) = Slice.elems (load h s).
Proof.
  unfold index. cbn [len load FlatSlice].
  rewrite <- (loadSlice_length h s). apply map_nth_seq.
Qed.

Lemma appendSlice_load (h h' : Heap) (m m' : slice) (x : string) :
  appendSlice h m x = (h', m') ->
  isSome m' = true /\
  Slice.elems (loadSlice h' m') = Slice.elems (loadSlice h m) ++ [x].
Proof.
  unfold appendSlice.
  destruct (Nat.ltb (hlen (headerOf m)) (hcap (headerOf m))) eqn:E.
  - apply Nat.ltb_lt in E. intros [= <- <-]. split; [ reflexivity | ].
    destruct m as [hd|]; [ | cbn in E; lia ].
    cbn [loadSlice Slice.elems headerOf cells ptr hlen].
    rewrite seq_S, map_app. cbn [map]. f_equal.
    + apply map_ext_in. intros a Ha. apply in_seq in Ha. unfold store.
      destruct (Nat.eqb a (ptr hd + hlen hd)) eqn:Ea; [ | reflexivity ].
      apply Nat.eqb_eq in Ea. lia.
    + unfold store. rewrite Nat.eqb_refl. reflexivity.
  - intros [= <- <-]. split; [ reflexivity | ].
    cbn [loadSlice Slice.elems cells ptr hlen].
    rewrite seq_S, map_app. cbn [map]. f_equal.
    + transitivity (map (cells h) (seq (ptr (headerOf m)) (hlen (headerOf m)))).
      * apply map_seq_shift. intros j Hj. unfold store, copyCells.
        destruct (Nat.eqb (brk h + j) (brk h + hlen (headerOf m))) eqn:Ea;
          [ apply Nat.eqb_eq in Ea; lia | ].
        rewrite (proj2 (Nat.leb_le _ _)) by lia.
        rewrite (proj2 (Nat.ltb_lt _ _)) by lia.
        cbn [andb]. f_equal. lia.
      * destruct m as [hd|]; reflexivity.
    + unfold store. rewrite Nat.eqb_refl. reflexivity.
Qed.

Lemma appendIfMissingElement_load (h h' : Heap) (m m' : slice) (x : string) :
  isSome m = true ->
  appendIfMissingElement h m x = (h', m') ->
  isSome m' = true /\
  Slice.elems (loadSlice h' m') = addIfMissing (Slice.elems (loadSlice h m)) x.
Proof.
  intros Hm. unfold appendIfMissingElement, addIfMissing.
  rewrite containsAt_existsb, FlatSlice_elements. cbn [load FlatSlice].
  destruct (existsb _ _).
  - intros [= <- <-]. auto.
  - apply appendSlice_load.
Qed.

Lemma appendIfMissingLoop_load (h0 : Heap) (target str : slice)
    (ks : list nat) :
  clearOf h0 target str ->
  forall (h h' : Heap) (m m' : slice),
    brk h0 <= brk h -> tracks h0 target m -> agreeOutside h0 h target ->
    isSome m = true ->
    appendIfMissingLoop h m str ks = (h', m') ->
    isSome m' = true /\
    Slice.elems (loadSlice h' m')
    = mergeNames (Slice.elems (loadSlice h m)) (map (index h0 str) ks).
Proof.
  intros Hstr.
  induction ks as [|k ks IH]; intros h h' m m' Hb Ht Ha Hm; cbn.
  - intros [= <- <-]. auto.
  - destruct (appendIfMissingElement h m (index h str k)) as [h1 m1] eqn:E.
    destruct (appendIfMissingElement_outside h0 h h1 target m m1 _ Hb Ht Ha E)
      as (Hb1 & Ht1 & Ha1).
    destruct (appendIfMissingElement_load h h1 m m1 _ Hm E) as (Hm1 & El).
    intros Hloop.
    destruct (IH h1 h' m1 m' Hb1 Ht1 Ha1 Hm1 Hloop) as (Hm' & El').
    split; [ exact Hm' | ]. rewrite El', El.
    unfold index. cbn [load FlatSlice].
    rewrite (loadSlice_outside h0 h target str Ha Hstr). reflexivity.
Qed.

Lemma appendIfMissingStr_load (h h' : Heap) (target str merged : slice) :
  clearOf h target str -> isSome target = true ->
  appendIfMissingStr h target str = (h', merged) ->
  isSome merged = true /\
  Slice.elems (loadSlice h' merged)
  = mergeNames (Slice.elems (loadSlice h target))
      (Slice.elems (loadSlice h str)).
Proof.
  intros Hstr Ht E. unfold appendIfMissingStr in E.
  apply (appendIfMissingLoop_load h target str _ Hstr) in E;
    [ | apply Nat.le_refl | apply tracks_refl | apply agreeOutside_refl
      | exact Ht ].
  rewrite FlatSlice_elements in E. exact E.
Qed.

Lemma setReplacementsCompleted_refines (h h' : Heap) (st st' : NRS.t slice)
    (r : Result.t slice) :
  clearOf h (NRS.ReplacementsCompleted st) (NRS.ReplacementsCreated st) ->
  clearOf h (NRS.ReplacementsCompleted st) (NRS.ReplacementsFailed st) ->
  clearOf h (NRS.ReplacementsCompleted st) (Result.ReplacementsCompleted r) ->
  setReplacementsCompleted h st r = (h', st') ->
  viewStatus h' st'
  = snd (setReplacementsCompleted tt (viewStatus h st) (viewResult h r)).
Proof.
  intros Hc Hf Hr.
  destruct (Result.ReplacementsCompleted r) as [hr|] eqn:Er.
  - rewrite (setReplacementsCompleted_value (viewStatus h st) (viewResult h r)
               (map (cells h) (seq (ptr hr) (hlen hr))))
      by (cbn; rewrite Er; reflexivity).
    cbn [snd]. unfold setReplacementsCompleted. rewrite Er.
    destruct (NRS.ReplacementsCompleted st) as [ht|] eqn:Et.
    + cbn [isNil FlatSlice isSome negb andb].
      destruct (appendIfMissingStr h _ _) as [h1 merged] eqn:E.
      pose proof E as Eout. unfold appendIfMissingStr in Eout.
      apply (appendIfMissingLoop_outside h (Some ht)) in Eout;
        [ | apply Nat.le_refl | apply tracks_refl | apply agreeOutside_refl ].
      destruct Eout as (_ & _ & Ha).
      apply appendIfMissingStr_load in E; [ | exact Hr | reflexivity ].
      destruct E as (Hm & El).
      cbn [NRS.ReplacementsCompleted set_ReplacementsCompletedCount
             set_ReplacementsCompleted].
      rewrite Hm. cbn [negb andb]. intros [= <- <-].
      unfold viewStatus. cbn [load len FlatSlice].
      cbn [NRS.Phase NRS.ReplacementsCreated NRS.ReplacementsCreatedCount
             NRS.ReplacementsCompleted NRS.ReplacementsCompletedCount
             NRS.ReplacementsFailed NRS.ReplacementsFailedCount
             NRS.CompletionTimestamp NRS.Conditions
             set_ReplacementsCompletedCount set_ReplacementsCompleted].
      rewrite Et.
      rewrite (loadSlice_outside h h1 (Some ht) _ Ha Hc).
      rewrite (loadSlice_outside h h1 (Some ht) _ Ha Hf).
      rewrite (loadSlice_Some h1 merged Hm), El.
      rewrite <- (loadSlice_length h1 merged), El.
      reflexivity.
    + cbn [isNil FlatSlice isSome negb andb]. rewrite Et.
      cbn [isNil FlatSlice isSome negb andb]. intros [= <- <-].
      unfold viewStatus. cbn [load len FlatSlice].
      cbn [NRS.Phase NRS.ReplacementsCreated NRS.ReplacementsCreatedCount
             NRS.ReplacementsCompleted NRS.ReplacementsCompletedCount
             NRS.ReplacementsFailed NRS.ReplacementsFailedCount
             NRS.CompletionTimestamp NRS.Conditions
             set_ReplacementsCompletedCount set_ReplacementsCompleted].
      rewrite Et. cbn [loadSlice headerOf hlen].
      rewrite length_map, length_seq. reflexivity.
  - unfold setReplacementsCompleted. rewrite Er.
    cbn [isNil FlatSlice isSome negb andb]. rewrite !andb_false_r.
    intros [= <- <-].
    cbn [viewResult Result.ReplacementsCompleted isNil ValueSlice].
    rewrite Er. cbn [loadSlice Slice.isNil negb]. rewrite !andb_false_r.
    reflexivity.
Qed.

Lemma view_setPhase (h h2 : Heap) (st : NRS.t slice) (r : Result.t slice) :
  setPhase (viewStatus h st) (viewResult h2 r) = viewStatus h (setPhase st r).
Proof. unfold setPhase. cbn. destruct (Result.Phase r); reflexivity. Qed.

Lemma view_setReplacementsCreated (h : Heap) (st : NRS.t slice)
    (r : Result.t slice) :
  setReplacementsCreated (viewStatus h st) (viewResult h r)
  = (viewStatus h (fst (setReplacementsCreated st r)),
     snd (setReplacementsCreated st r)).
Proof.
  unfold setReplacementsCreated. cbn.
  destruct (NRS.ReplacementsCreated st) as [hs|],
    (Result.ReplacementsCreated r) as [hr|]; cbn; try reflexivity.
  unfold viewStatus, Slice.len. cbn. rewrite length_map, length_seq.
  reflexivity.
Qed.

Lemma view_setCompletionTimestamp (h h2 : Heap) (st : NRS.t slice)
    (r : Result.t slice) :
  setCompletionTimestamp (viewStatus h st) (viewResult h2 r)
  = (viewStatus h (fst (setCompletionTimestamp st r)),
     snd (setCompletionTimestamp st r)).
Proof.
  unfold setCompletionTimestamp. cbn.
  destruct (NRS.CompletionTimestamp st), (Result.CompletionTimestamp r);
    reflexivity.
Qed.

Lemma view_setNodeRolloutCondition (h : Heap) (st : NRS.t slice) (c : NRC.t) :
  setNodeRolloutCondition (viewStatus h st) c
  = viewStatus h (setNodeRolloutCondition st c).
Proof.
  unfold setNodeRolloutCondition, getNodeRolloutCondition. cbn.
  destruct (findCondition _ _) as [cur|]; [ | reflexivity ].
  destruct (ConditionStatus_eqb _ _ && _); reflexivity.
Qed.

Lemma view_setCreatedCondition (w : World) (h h2 : Heap) (st : NRS.t slice)
    (r : Result.t slice) :
  setCreatedCondition w (viewStatus h st) (viewResult h2 r)
  = (fst (fst (setCreatedCondition w st r)),
     viewStatus h (snd (fst (setCreatedCondition w st r))),
     snd (setCreatedCondition w st r)).
Proof.
  unfold setCreatedCondition, createdCondition. cbn.
  destruct (isSome _ && _); [ reflexivity | ].
  destruct (negb _); [ | reflexivity ].
  cbn. rewrite view_setNodeRolloutCondition. reflexivity.
Qed.

Lemma view_setInProgressCondition (w : World) (h h2 : Heap)
    (st : NRS.t slice) (r : Result.t slice) :
  setInProgressCondition w (viewStatus h st) (viewResult h2 r)
  = (fst (fst (setInProgressCondition w st r)),
     viewStatus h (snd (fst (setInProgressCondition w st r))),
     snd (setInProgressCondition w st r)).
Proof.
  unfold setInProgressCondition, inProgressCondition. cbn.
  destruct (isSome _ && _); [ reflexivity | ].
  destruct (negb _); [ | reflexivity ].
  cbn. rewrite view_setNodeRolloutCondition. reflexivity.
Qed.

(** The ReplacementsCreated a status holds after [setReplacementsCreated] is
    the one it held or the one of the result. *)
Lemma setReplacementsCreated_source (st st' : NRS.t slice)
    (r : Result.t slice) (e : error) :
  setReplacementsCreated st r = (st', e) ->
  NRS.ReplacementsCreated st' = NRS.ReplacementsCreated st \/
  NRS.ReplacementsCreated st' = Result.ReplacementsCreated r.
Proof.
  unfold setReplacementsCreated.
  destruct (negb _ && _); [ intros [= <- <-]; auto | ].
  destruct (_ && _); intros [= <- <-]; auto.
Qed.

Lemma setReplacementsCompleted_value_memory (st : StatusV) (r : ResultV) :
  setReplacementsCompleted tt st r = (tt, snd (setReplacementsCompleted tt st r)).
Proof. destruct (setReplacementsCompleted tt st r) as [[] st']. reflexivity. Qed.

Lemma mergeStatus_refines (w w' : World) (h h' : Heap)
    (i : NodeRollout.t slice) (r : Result.t slice) (m : NRS.t slice)
    (e : error) :
  apart h i r ->
  mergeStatus w h i r = (w', h', m, e) ->
  mergeStatus w tt (viewInstance h i) (viewResult h r)
  = (w', tt, viewStatus h' m, e).
Proof.
  intros ((Sc & _ & Sf) & Rc & Rp). unfold mergeStatus.
  cbn [viewInstance NodeRollout.Status].
  rewrite (view_setPhase h h), view_setReplacementsCreated.
  destruct (setPhase_frame (NodeRollout.Status i) r)
    as (Pc & _ & Pp & _ & Pf & _).
  destruct (setReplacementsCreated (setPhase (NodeRollout.Status i) r) r)
    as [st1 e1] eqn:E1.
  cbn [fst snd].
  destruct e1 as [x|]; [ intros [= <- <- <- <-]; reflexivity | ].
  pose proof (setReplacementsCreated_source _ _ _ _ E1) as Hsrc.
  apply setReplacementsCreated_frame in E1.
  destruct E1 as (_ & C1 & _ & F1 & _).
  rewrite setReplacementsCompleted_value_memory.
  destruct (setReplacementsCompleted h st1 r) as [h2 st2] eqn:E2.
  apply setReplacementsCompleted_refines in E2.
  - rewrite <- E2.
    rewrite (view_setCompletionTimestamp h2 h).
    destruct (setCompletionTimestamp st2 r) as [st3 [x|]]; cbn [fst snd];
      [ intros [= <- <- <- <-]; reflexivity | ].
    rewrite (view_setCreatedCondition w h2 h).
    destruct (setCreatedCondition w st3 r) as [[w4 st4] [x|]]; cbn [fst snd];
      [ intros [= <- <- <- <-]; reflexivity | ].
    rewrite (view_setInProgressCondition w4 h2 h).
    destruct (setInProgressCondition w4 st4 r) as [[w5 st5] e5]; cbn [fst snd].
    intros [= <- <- <- <-]. reflexivity.
  - rewrite C1, Pp. destruct Hsrc as [-> | ->]; [ rewrite Pc; exact Sc | exact Rc ].
  - rewrite C1, Pp, F1, Pf. exact Sf.
  - rewrite C1, Pp. exact Rp.
Qed.

(** On memories where the slices of the instance and of the result are
    clear of the spare capacity of the stored ReplacementsCompleted,
    [UpdateStatus] over the flat memory hands to the store and returns what
    [UpdateStatus] on the contents does. *)
Theorem UpdateStatus_refines (w : World) (h : Heap)
    (i : NodeRollout.t slice) (r : Result.t slice) :
  apart h i r ->
  UpdateStatus w tt (viewInstance h i) (viewResult h r)
  = (fst (fst (UpdateStatus w h i r)), tt, snd (UpdateStatus w h i r)).
Proof.
  intros Hap.
  pose proof (instance_contents_kept w h i r (proj1 Hap)) as Hinst.
  unfold UpdateStatus in *.
  destruct (mergeStatus w h i r) as [[[w1 h1] m] e1] eqn:Em.
  rewrite (mergeStatus_refines w w1 h h1 i r m e1 Hap Em).
  destruct e1 as [x|]; [ reflexivity | ].
  unfold DeepEqual in *. rewrite !viewStatus_value.
  cbn [viewInstance NodeRollout.Status NodeRollout.Name].
  assert (Hsame : viewStatus h1 (NodeRollout.Status i)
                  = viewStatus h (NodeRollout.Status i)).
  { destruct (StatusV_eq_dec (viewStatus h1 m)
                (viewStatus h1 (NodeRollout.Status i))) as [Eq|Ne];
      cbn [negb] in Hinst.
    - exact Hinst.
    - destruct (Update w1 _) as [w2 [x|]]; exact Hinst. }
  rewrite <- Hsame.
  destruct (StatusV_eq_dec (viewStatus h1 m)
              (viewStatus h1 (NodeRollout.Status i))) as [Eq|Ne];
    cbn [negb]; [ reflexivity | ].
  destruct (Update w1 _) as [w2 [x|]]; reflexivity.
Qed.

(** The run on the arrays that lie apart, against the run on the contents. *)
Example apart_run_refines :
  UpdateStatus (acceptingWorld (exampleRollout emptyStatus)) tt
    (viewInstance apartHeap apartInstance) (viewResult apartHeap apartResult)
  = (fst (fst (UpdateStatus (acceptingWorld (exampleRollout emptyStatus))
                 apartHeap apartInstance apartResult)),
     tt,
     snd (UpdateStatus (acceptingWorld (exampleRollout emptyStatus))
            apartHeap apartInstance apartResult)).
Proof.
  apply UpdateStatus_refines.
  unfold apart, separated, clearOf, visible, spare. cbn.
  repeat split; try lia; tauto.
Qed.

End FlatRefinement.

(** * Further properties of the status package *)

(** ** What a merge leaves in each field *)

Section MergeFields.

Context {H S : Type} `{GoSlice H S}.

Lemma setPhase_failed (st : NRS.t S) (r : Result.t S) :
  NRS.ReplacementsFailedCount (setPhase st r) = NRS.ReplacementsFailedCount st /\
  NRS.Phase (setPhase st r)
  = match Result.Phase r with
    | Some p => p
    | None => NRS.Phase st
    end.
Proof. unfold setPhase. destruct (Result.Phase r); split; reflexivity. Qed.






End MergeFields.

Section MergeOutcome.

Context {H S : Type} `{GoSlice H S}.

Lemma setReplacementsCreated_effect (st st' : NRS.t S) (r : Result.t S) :
  setReplacementsCreated st r = (st', None) ->
  (isNil (NRS.ReplacementsCreated st) = false ->
   NRS.ReplacementsCreated st' = NRS.ReplacementsCreated st /\
   NRS.ReplacementsCreatedCount st' = NRS.ReplacementsCreatedCount st) /\
  (isNil (NRS.ReplacementsCreated st) = true ->
   isNil (Result.ReplacementsCreated r) = false ->
   NRS.ReplacementsCreated st' = Result.ReplacementsCreated r /\
   NRS.ReplacementsCreatedCount st'
   = Z.of_nat (len (Result.ReplacementsCreated r))) /\
  (isNil (Result.ReplacementsCreated r) = true ->
   NRS.ReplacementsCreated st' = NRS.ReplacementsCreated st /\
   NRS.ReplacementsCreatedCount st' = NRS.ReplacementsCreatedCount st).
Proof.
  unfold setReplacementsCreated.
  destruct (isNil (NRS.ReplacementsCreated st)),
    (isNil (Result.ReplacementsCreated r)); cbn;
    intros [= <-]; repeat split; intros; try discriminate; reflexivity.
Qed.


Lemma setReplacementsCompleted_count (h h' : H) (st st' : NRS.t S)
    (r : Result.t S) :
  setReplacementsCompleted h st r = (h', st') ->
  (isNil (Result.ReplacementsCompleted r) = true ->
   h' = h /\ st' = st) /\
  (isNil (Result.ReplacementsCompleted r) = false ->
   NRS.ReplacementsCompletedCount st'
   = Z.of_nat (len (NRS.ReplacementsCompleted st'))).
Proof.
  unfold setReplacementsCompleted.
  destruct (isNil (Result.ReplacementsCompleted r)); cbn [negb].
  - rewrite !andb_false_r. intros [= <- <-].
    split; [ auto | discriminate ].
  - rewrite !andb_true_r.
    destruct (negb (isNil (NRS.ReplacementsCompleted st))) eqn:En.
    + destruct (appendIfMissingStr _ _ _) as [h1 merged]. cbn.
      destruct (isNil merged); intros [= <- <-];
        (split; [ discriminate | reflexivity ]).
    + apply negb_false_iff in En. rewrite En. intros [= <- <-].
      split; [ discriminate | reflexivity ].
Qed.


(** X4.  Counts that agree with the lengths of their slices still agree after a
    merge without error. *)
Theorem mergeStatus_counts (w w' : World) (h h' : H) (i : NodeRollout.t S)
    (r : Result.t S) (m : NRS.t S) :
  countsAgree (NodeRollout.Status i) ->
  mergeStatus w h i r = (w', h', m, None) ->
  countsAgree m.
Proof.
  intros (Hc & Hp) Hm. apply mergeStatus_steps in Hm.
  destruct Hm as (st1 & st2 & st3 & w4 & st4 & E1 & E2 & E3 & E4 & E5).
  destruct (setPhase_frame (NodeRollout.Status i) r)
    as (Pc & Pcc & Pp & Ppc & _).
  pose proof (setReplacementsCreated_effect _ _ _ E1) as (K1 & K2 & K3).
  apply setReplacementsCreated_frame in E1.
  destruct E1 as (_ & Q1 & Qc1 & _).
  pose proof (setReplacementsCompleted_count _ _ _ _ _ E2) as (M1 & M2).
  apply setReplacementsCompleted_frame in E2.
  destruct E2 as (_ & C2 & Cc2 & _).
  apply setCompletionTimestamp_frame in E3.
  destruct E3 as (_ & C3 & Cc3 & Q3 & Qc3 & _).
  apply setCreatedCondition_same in E4.
  destruct E4 as (_ & C4 & Cc4 & Q4 & Qc4 & _).
  apply setInProgressCondition_same in E5.
  destruct E5 as (_ & C5 & Cc5 & Q5 & Qc5 & _).
  rewrite Pc, Pcc in *.
  split.
  - rewrite Cc5, Cc4, Cc3, Cc2, C5, C4, C3, C2.
    destruct (isNil (Result.ReplacementsCreated r)) eqn:Er.
    + destruct (K3 eq_refl) as [-> ->]. exact Hc.
    + destruct (isNil (NRS.ReplacementsCreated (NodeRollout.Status i))) eqn:Es.
      * destruct (K2 eq_refl eq_refl) as [-> ->]. reflexivity.
      * destruct (K1 eq_refl) as [-> ->]. exact Hc.
  - rewrite Qc5, Qc4, Qc3, Q5, Q4, Q3.
    destruct (isNil (Result.ReplacementsCompleted r)) eqn:Er.
    + destruct (M1 eq_refl) as [_ ->]. congruence.
    + apply M2. reflexivity.
Qed.

End MergeOutcome.

(** ** ReplacementsCompleted only grows *)


Lemma mergeNames_absorbed (new acc : list string) :
  (forall x, In x new -> In x acc) -> mergeNames acc new = acc.
Proof.
  unfold mergeNames. revert acc.
  induction new as [|y new IH]; intros acc Hall; cbn [fold_left];
    [ reflexivity | ].
  unfold addIfMissing.
  rewrite (proj2 (existsb_eqb_In acc y)) by (apply Hall; left; reflexivity).
  apply IH. intros x Hx. apply Hall. right. exact Hx.
Qed.

Lemma setReplacementsCompleted_nil_result (st : StatusV) (r : ResultV) :
  Result.ReplacementsCompleted r = None ->
  setReplacementsCompleted tt st r = (tt, st).
Proof.
  intros Hr. unfold setReplacementsCompleted. rewrite Hr. cbn.
  rewrite !andb_false_r. reflexivity.
Qed.


(** X6.  Applying the same result a second time changes nothing: the stored
    list and its count are the ones the first application left. *)
Theorem setReplacementsCompleted_idempotent (st : StatusV) (r : ResultV) :
  setReplacementsCompleted tt (snd (setReplacementsCompleted tt st r)) r
  = setReplacementsCompleted tt st r.
Proof.
  destruct (Result.ReplacementsCompleted r) as [new|] eqn:Er.
  - rewrite (setReplacementsCompleted_value st r new Er). cbn [snd].
    rewrite (setReplacementsCompleted_value _ r new Er).
    destruct (NRS.ReplacementsCompleted st) as [old|]; cbn.
    + rewrite (mergeNames_absorbed new (mergeNames old new));
        [ reflexivity | ].
      intros x Hx. apply mergeNames_In. right. exact Hx.
    + rewrite (mergeNames_absorbed new new) by auto. reflexivity.
  - rewrite !(setReplacementsCompleted_nil_result _ r Er). reflexivity.
Qed.

(** ** Conditions: lookup after update, and applying twice *)

Lemma setNodeRolloutCondition_get_other {S : Type} (st : NRS.t S) (c : NRC.t)
    (T : string) :
  T <> NRC.Type_ c ->
  getNodeRolloutCondition (setNodeRolloutCondition st c) T
  = getNodeRolloutCondition st T.
Proof.
  intros HT.
  destruct (getNodeRolloutCondition st (NRC.Type_ c)) as [cur|] eqn:Hg.
  - rewrite (setNodeRolloutCondition_cases st cur c Hg).
    destruct (ConditionStatus_eqb _ _);
      [ destruct (String.eqb _ _); [ reflexivity | ] | ].
    + apply (replaced_get_other st
               (set_LastTransitionTime c (NRC.LastTransitionTime cur))).
      exact HT.
    + apply replaced_get_other. exact HT.
  - rewrite (setNodeRolloutCondition_absent st c Hg).
    apply replaced_get_other. exact HT.
Qed.

Lemma setNodeRolloutCondition_noop {S : Type} (st : NRS.t S) (cur c : NRC.t) :
  getNodeRolloutCondition st (NRC.Type_ c) = Some cur ->
  NRC.Status cur = NRC.Status c -> NRC.Reason cur = NRC.Reason c ->
  setNodeRolloutCondition st c = st.
Proof.
  intros Hg Es Er. rewrite (setNodeRolloutCondition_cases st cur c Hg).
  rewrite (proj2 (ConditionStatus_eqb_eq _ _) Es).
  rewrite (proj2 (String.eqb_eq _ _) Er). reflexivity.
Qed.

Lemma lookup_after_set {S : Type} (st : NRS.t S) (c : NRC.t) :
  exists c',
    getNodeRolloutCondition (setNodeRolloutCondition st c) (NRC.Type_ c)
    = Some c' /\
    NRC.Type_ c' = NRC.Type_ c /\ NRC.Status c' = NRC.Status c /\
    NRC.Reason c' = NRC.Reason c.
Proof.
  destruct (getNodeRolloutCondition st (NRC.Type_ c)) as [cur|] eqn:Hg.
  - rewrite (setNodeRolloutCondition_cases st cur c Hg).
    destruct (ConditionStatus_eqb _ _) eqn:Es;
      [ destruct (String.eqb _ _) eqn:Er | ].
    + exists cur. apply ConditionStatus_eqb_eq in Es.
      apply String.eqb_eq in Er.
      unfold getNodeRolloutCondition in Hg.
      destruct (findCondition_Some _ _ _ Hg) as [_ Et].
      repeat split; assumption.
    + exists (set_LastTransitionTime c (NRC.LastTransitionTime cur)).
      split; [ | repeat split ].
      apply (replaced_get st
               (set_LastTransitionTime c (NRC.LastTransitionTime cur))).
    + exists c. split; [ apply replaced_get | repeat split ].
  - rewrite (setNodeRolloutCondition_absent st c Hg).
    exists c. split; [ apply replaced_get | repeat split ].
Qed.

(** X7.  After a condition is applied, the lookup of its type finds an entry
    with the status and the reason of that condition, whatever the status
    held before. *)
Theorem getNodeRolloutCondition_after_set {S : Type} (st : NRS.t S)
    (c : NRC.t) :
  exists c',
    getNodeRolloutCondition (setNodeRolloutCondition st c) (NRC.Type_ c)
    = Some c' /\
    NRC.Type_ c' = NRC.Type_ c /\ NRC.Status c' = NRC.Status c /\
    NRC.Reason c' = NRC.Reason c.
Proof. apply lookup_after_set. Qed.

(** X8.  Applying a condition and then one of the same type, status and reason
    (other timestamps, another message) leaves what the first application
    left. *)
Theorem setNodeRolloutCondition_twice {S : Type} (st : NRS.t S)
    (c c2 : NRC.t) :
  NRC.Type_ c2 = NRC.Type_ c -> NRC.Status c2 = NRC.Status c ->
  NRC.Reason c2 = NRC.Reason c ->
  setNodeRolloutCondition (setNodeRolloutCondition st c) c2
  = setNodeRolloutCondition st c.
Proof.
  intros Et Es Er.
  destruct (lookup_after_set st c) as (c' & Hg & _ & Hs & Hr).
  rewrite <- Et in Hg.
  apply (setNodeRolloutCondition_noop _ c' c2 Hg); congruence.
Qed.

Lemma filterOutLoop_Some (l : list NRC.t) (acc : list NRC.t) (T : string) :
  exists l', filterOutLoop (Some acc) l T = Some l'.
Proof.
  revert acc. induction l as [|c l IH]; intros acc; cbn.
  - exists acc. reflexivity.
  - destruct (String.eqb (NRC.Type_ c) T); apply IH.
Qed.

Lemma filterOutLoop_filter (l : list NRC.t) (acc : Slice.t NRC.t)
    (T : string) :
  filterOutLoop acc (filter (otherType T) l) T = filterOutLoop acc l T.
Proof.
  revert acc. induction l as [|c l IH]; intros acc; cbn; [ reflexivity | ].
  unfold otherType at 1.
  destruct (String.eqb (NRC.Type_ c) T) eqn:E; cbn [negb].
  - apply IH.
  - cbn. rewrite E. apply IH.
Qed.

(** X9.  [filterOutCondition] keeps the conditions of the other types, in their
    order, and no condition of the type; it gives the nil slice, not an empty
    one, exactly when no condition is kept; filtering again changes
    nothing. *)
Theorem filterOutCondition_keeps_others (conds : Slice.t NRC.t) (T : string) :
  Slice.elems (filterOutCondition conds T)
  = filter (fun c => negb (String.eqb (NRC.Type_ c) T)) (Slice.elems conds) /\
  findCondition (Slice.elems (filterOutCondition conds T)) T = None /\
  (filterOutCondition conds T = None <->
   forall c, In c (Slice.elems conds) -> NRC.Type_ c = T) /\
  filterOutCondition (filterOutCondition conds T) T = filterOutCondition conds T.
Proof.
  split; [ apply filterOutCondition_elems | ].
  split.
  { rewrite filterOutCondition_elems. apply findCondition_None.
    apply filter_otherType_types. }
  split.
  - unfold filterOutCondition.
    induction (Slice.elems conds) as [|c l IH]; cbn.
    + split; [ intros _ c [] | reflexivity ].
    + destruct (String.eqb (NRC.Type_ c) T) eqn:E.
      * apply String.eqb_eq in E. rewrite IH. split.
        -- intros Hall x [<- | Hx]; auto.
        -- intros Hall x Hx. apply Hall. right. exact Hx.
      * apply String.eqb_neq in E. split.
        -- intros Hn.
           destruct (filterOutLoop_Some l [c] T) as [l' El].
           unfold Slice.append in Hn. cbn in Hn. congruence.
        -- intros Hall. elim E. apply Hall. left. reflexivity.
  - unfold filterOutCondition at 1 3.
    rewrite filterOutCondition_elems. apply filterOutLoop_filter.
Qed.

(** ** Applying a result a second time *)

Lemma types_differ : ReplacementsCreatedType <> ReplacementsInProgressType.
Proof. discriminate. Qed.

Section Reapply.

Context {H S : Type} `{GoSlice H S}.

(** When the Created setter passes, the status it leaves absorbs the
    condition the setter builds at any other time. *)
Lemma setCreatedCondition_settled (w w' : World) (st st' : NRS.t S)
    (r : Result.t S) :
  setCreatedCondition w st r = (w', st', None) ->
  forall w2 st2,
    (Result.ReplacementsCreatedReason r <> "" ->
     getNodeRolloutCondition st2 ReplacementsCreatedType
     = getNodeRolloutCondition st' ReplacementsCreatedType) ->
    exists w3, setCreatedCondition w2 st2 r = (w3, st2, None) /\
               sameStore w2 w3.
Proof.
  intros E w2 st2 Hget.
  destruct (String.eqb (Result.ReplacementsCreatedReason r) "") eqn:Er.
  - exists w2. split; [ | apply sameStore_refl ].
    revert E. unfold setCreatedCondition. rewrite Er. cbn [negb].
    rewrite andb_true_r.
    destruct (isSome (Result.ReplacementsCreatedError r));
      [ discriminate | reflexivity ].
  - apply String.eqb_neq in Er.
    rewrite (setCreatedCondition_applies w st r Er) in E.
    injection E as _ Est.
    rewrite (setCreatedCondition_applies w2 st2 r Er).
    exists (snd (Now (snd (Now w2)))). split; [ | repeat split ].
    f_equal. f_equal.
    match type of Est with
    | setNodeRolloutCondition st ?c = _ =>
        destruct (lookup_after_set st c)
          as (c' & Hg & _ & Hs & Hr)
    end.
    cbn [NRC.Type_ NRC.Status NRC.Reason] in Hg, Hs, Hr.
    rewrite Est, <- (Hget Er) in Hg.
    apply (setNodeRolloutCondition_noop st2 c'); [ exact Hg | | ];
      assumption.
Qed.

Lemma setInProgressCondition_settled (w w' : World) (st st' : NRS.t S)
    (r : Result.t S) :
  setInProgressCondition w st r = (w', st', None) ->
  forall w2 st2,
    (Result.ReplacementsInProgressReason r <> "" ->
     getNodeRolloutCondition st2 ReplacementsInProgressType
     = getNodeRolloutCondition st' ReplacementsInProgressType) ->
    exists w3, setInProgressCondition w2 st2 r = (w3, st2, None) /\
               sameStore w2 w3.
Proof.
  intros E w2 st2 Hget.
  destruct (String.eqb (Result.ReplacementsInProgressReason r) "") eqn:Er.
  - exists w2. split; [ | apply sameStore_refl ].
    revert E. unfold setInProgressCondition. rewrite Er. cbn [negb].
    rewrite andb_true_r.
    destruct (isSome (Result.ReplacementsInProgressError r));
      [ discriminate | reflexivity ].
  - apply String.eqb_neq in Er.
    rewrite (setInProgressCondition_applies w st r Er) in E.
    injection E as _ Est.
    rewrite (setInProgressCondition_applies w2 st2 r Er).
    exists (snd (Now (snd (Now w2)))). split; [ | repeat split ].
    f_equal. f_equal.
    match type of Est with
    | setNodeRolloutCondition st ?c = _ =>
        destruct (lookup_after_set st c)
          as (c' & Hg & _ & Hs & Hr)
    end.
    cbn [NRC.Type_ NRC.Status NRC.Reason] in Hg, Hs, Hr.
    rewrite Est, <- (Hget Er) in Hg.
    apply (setNodeRolloutCondition_noop st2 c'); [ exact Hg | | ];
      assumption.
Qed.

(** The in-progress setter leaves the lookup of the Created type alone. *)
Lemma setInProgressCondition_created (w w' : World) (st st' : NRS.t S)
    (r : Result.t S) (e : error) :
  setInProgressCondition w st r = (w', st', e) ->
  getNodeRolloutCondition st' ReplacementsCreatedType
  = getNodeRolloutCondition st ReplacementsCreatedType.
Proof.
  unfold setInProgressCondition.
  destruct (isSome _ && _); [ intros [= <- <- <-]; reflexivity | ].
  destruct (negb _); [ | intros [= <- <- <-]; reflexivity ].
  destruct (inProgressCondition w r) as [c w1] eqn:Ec.
  intros [= <- <- <-].
  apply setNodeRolloutCondition_get_other.
  revert Ec. unfold inProgressCondition, newNodeRolloutCondition, Now.
  intros [= <- _].
  destruct (Result.ReplacementsInProgressError r);
    destruct (String.eqb _ "ReplacementsCompleted"); cbn;
    exact types_differ.
Qed.

End Reapply.

Lemma set_Phase_same (st : StatusV) : set_Phase st (NRS.Phase st) = st.
Proof. destruct st; reflexivity. Qed.

Lemma set_Completed_same (st : StatusV) :
  set_ReplacementsCompletedCount
    (set_ReplacementsCompleted st (NRS.ReplacementsCompleted st))
    (NRS.ReplacementsCompletedCount st) = st.
Proof. destruct st; reflexivity. Qed.

(** A status that holds the outcome of merging [r] takes [r] again without
    change. *)
Lemma setReplacementsCompleted_settled (st m : StatusV) (r : ResultV) :
  NRS.ReplacementsCompleted m
  = NRS.ReplacementsCompleted (snd (setReplacementsCompleted tt st r)) ->
  NRS.ReplacementsCompletedCount m
  = NRS.ReplacementsCompletedCount (snd (setReplacementsCompleted tt st r)) ->
  setReplacementsCompleted tt m r = (tt, m).
Proof.
  destruct (Result.ReplacementsCompleted r) as [new|] eqn:Er.
  - rewrite (setReplacementsCompleted_value st r new Er). cbn [snd].
    rewrite (setReplacementsCompleted_value m r new Er).
    intros Ec En. f_equal.
    destruct (NRS.ReplacementsCompleted st) as [old|]; cbn in Ec, En;
      rewrite Ec.
    + rewrite (mergeNames_absorbed new (mergeNames old new))
        by (intros x Hx; apply mergeNames_In; right; exact Hx).
      rewrite <- Ec, <- En. apply set_Completed_same.
    + rewrite (mergeNames_absorbed new new) by auto.
      rewrite <- Ec, <- En. apply set_Completed_same.
  - intros _ _. apply (setReplacementsCompleted_nil_result m r Er).
Qed.

(** X10.  Re-application.  Let a merge of [r] end without error in the status
    [m], and let [r] supply neither of the two write-once fields.  Then
    [UpdateStatus] called with [r] on an instance that holds [m] returns nil
    and hands nothing to the store, at whatever time it is called. *)
Theorem UpdateStatus_reapplied (w w1 : World) (i : NodeRolloutV)
    (r : ResultV) (m : StatusV) :
  mergeStatus w tt i r = (w1, tt, m, None) ->
  Result.ReplacementsCreated r = None ->
  Result.CompletionTimestamp r = None ->
  forall (w2 : World) (name : string),
    exists w3,
      UpdateStatus w2 tt (NodeRollout.mk name m) r = (w3, tt, None) /\
      sameStore w2 w3.
Proof.
  intros Hm Hrc Hrt w2 name.
  apply mergeStatus_steps in Hm.
  destruct Hm as (st1 & st2 & st3 & w4 & st4 & E1 & E2 & E3 & E4 & E5).
  pose proof (setCreatedCondition_same _ _ _ _ _ _ E4) as S4.
  pose proof (setInProgressCondition_same _ _ _ _ _ _ E5) as S5.
  pose proof (setCompletionTimestamp_frame _ _ _ _ E3)
    as (_ & _ & _ & Q3 & Qc3 & _).
  destruct S4 as (_ & _ & _ & Q4 & Qc4 & _).
  destruct S5 as (_ & _ & _ & Q5 & Qc5 & _).
  assert (P1 : setPhase m r = m).
  { unfold setPhase. destruct (Result.Phase r) as [p|] eqn:Ep;
      [ | reflexivity ].
    destruct (setPhase_failed (NodeRollout.Status i) r) as (_ & Hp).
    rewrite Ep in Hp.
    pose proof (setReplacementsCreated_frame _ _ _ _ E1) as (F1 & _).
    pose proof (setReplacementsCompleted_frame _ _ _ _ _ E2) as (F2 & _).
    pose proof (setCompletionTimestamp_frame _ _ _ _ E3) as (F3 & _).
    pose proof (setCreatedCondition_same _ _ _ _ _ _ E4) as (F4 & _).
    pose proof (setInProgressCondition_same _ _ _ _ _ _ E5) as (F5 & _).
    replace p with (NRS.Phase m) by congruence. apply set_Phase_same. }
  assert (P2 : setReplacementsCreated m r = (m, None)).
  { unfold setReplacementsCreated. rewrite Hrc. cbn.
    rewrite !andb_false_r. reflexivity. }
  assert (P3 : setReplacementsCompleted tt m r = (tt, m)).
  { apply (setReplacementsCompleted_settled st1).
    - rewrite E2. cbn [snd]. congruence.
    - rewrite E2. cbn [snd]. congruence. }
  assert (P4 : setCompletionTimestamp m r = (m, None)).
  { unfold setCompletionTimestamp. rewrite Hrt.
    destruct (NRS.CompletionTimestamp m); reflexivity. }
  destruct (setCreatedCondition_settled _ _ _ _ _ E4 w2 m) as (w3 & P5 & W5).
  { intros _. apply (setInProgressCondition_created _ _ _ _ _ _ E5). }
  destruct (setInProgressCondition_settled _ _ _ _ _ E5 w3 m)
    as (w5 & P6 & W6); [ reflexivity | ].
  exists w5. split; [ | eapply sameStore_trans; eassumption ].
  unfold UpdateStatus, mergeStatus. cbn [NodeRollout.Status].
  rewrite P1, P2, P3, P4, P5, P6.
  unfold DeepEqual.
  destruct (StatusV_eq_dec (viewStatus tt m) (viewStatus tt m)) as [_|Ne];
    [ reflexivity | contradiction ].
Qed.

Lemma UpdateStatus_reapplied_witness :
  exists w3,
    UpdateStatus (rejectingWorld (exampleRollout emptyStatus)) tt
      (NodeRollout.mk "example"
         (snd (fst (mergeStatus (acceptingWorld (exampleRollout runningStatus))
                      tt (exampleRollout runningStatus) finishing))))
      finishing
    = (w3, tt, None) /\
    sameStore (rejectingWorld (exampleRollout emptyStatus)) w3.
Proof.
  apply (UpdateStatus_reapplied
           (acceptingWorld (exampleRollout runningStatus))
           (fst (fst (fst (mergeStatus
                             (acceptingWorld (exampleRollout runningStatus))
                             tt (exampleRollout runningStatus) finishing))))
           (exampleRollout runningStatus) finishing);
    reflexivity.
Defined.

(** ** Results that change nothing, results that change little *)

(** X11.  A result that carries nothing makes [UpdateStatus] do nothing, for every
    instance: nil is returned, the clock is not read, the memory is not
    written and nothing is handed to the store. *)
Theorem UpdateStatus_nothing {H S : Type} `{GoSlice H S} (w : World) (h : H)
    (i : NodeRollout.t S) (r : Result.t S) :
  carriesNothing r -> UpdateStatus w h i r = (w, h, None).
Proof.
  intros (Hp & Hc & Hd & Ht & Hce & Hcr & Hie & Hir).
  unfold UpdateStatus, mergeStatus, setPhase, setReplacementsCreated,
    setReplacementsCompleted, setCompletionTimestamp, setCreatedCondition,
    setInProgressCondition.
  rewrite Hp, Hc, Hd, Ht, Hce, Hcr, Hie, Hir. cbn.
  rewrite ?andb_false_r. cbn.
  rewrite ?andb_false_r.
  destruct (NRS.CompletionTimestamp (NodeRollout.Status i)); cbn;
    unfold DeepEqual;
    destruct (StatusV_eq_dec _ _) as [_|Ne];
    reflexivity || contradiction.
Qed.

Lemma UpdateStatus_nothing_witness :
  UpdateStatus (rejectingWorld (exampleRollout emptyStatus)) tt
    (exampleRollout runningStatus) emptyResult
  = (rejectingWorld (exampleRollout emptyStatus), tt, None).
Proof.
  apply (UpdateStatus_nothing (rejectingWorld (exampleRollout emptyStatus)) tt
           (exampleRollout runningStatus) emptyResult).
  repeat split.
Defined.

(** X12.  Nil and empty differ.  On a status whose ReplacementsCreated is nil, a
    result that supplies the empty list and nothing else is a change also
    when the count already is zero: one update reaches the store, and it
    carries the empty list and the count zero. *)
Theorem UpdateStatus_empty_created_written (w : World) (name : string)
    (st : StatusV) (r : ResultV) :
  NRS.ReplacementsCreated st = None ->
  Result.ReplacementsCreated r = Some [] ->
  carriesNothing (result_Created r None) ->
  updates (fst (fst (UpdateStatus w tt (NodeRollout.mk name st) r)))
  = updates w
    ++ [NodeRollout.mk name
          (set_ReplacementsCreatedCount
             (set_ReplacementsCreated st (Some [])) 0)].
Proof.
  intros Hs Hr (Hp & _ & Hd & Ht & Hce & Hcr & Hie & Hir).
  cbn in Hp, Hd, Ht, Hce, Hcr, Hie, Hir.
  unfold UpdateStatus, mergeStatus, setPhase, setReplacementsCreated,
    setReplacementsCompleted, setCompletionTimestamp, setCreatedCondition,
    setInProgressCondition.
  cbn [NodeRollout.Status isNil len ValueSlice].
  rewrite Hp, Hs, Hr. cbn [Slice.isNil negb andb].
  cbn [NRS.ReplacementsCompleted set_ReplacementsCreatedCount
         set_ReplacementsCreated].
  rewrite Hd, Ht, Hce, Hcr, Hie, Hir. cbn.
  rewrite ?andb_false_r. cbn.
  assert (Hne : set_ReplacementsCreatedCount
                  (set_ReplacementsCreated st (Some [])) 0 <> st).
  { intros E. apply (f_equal NRS.ReplacementsCreated) in E. cbn in E.
    congruence. }
  destruct (NRS.CompletionTimestamp st); cbn;
    unfold DeepEqual; rewrite !viewStatus_value;
    (destruct (StatusV_eq_dec _ _) as [Eq|_]; [ contradiction | ]);
    cbn [negb]; unfold Update;
    destruct (verdict w _); reflexivity.
Qed.

Lemma UpdateStatus_empty_created_written_witness :
  updates (fst (fst (UpdateStatus (acceptingWorld (exampleRollout emptyStatus))
                       tt (NodeRollout.mk "example" emptyStatus)
                       (result_Created emptyResult (Some [])))))
  = [NodeRollout.mk "example" (with_Created emptyStatus [])].
Proof.
  apply (UpdateStatus_empty_created_written
           (acceptingWorld (exampleRollout emptyStatus)) "example" emptyStatus
           (result_Created emptyResult (Some [])));
    [ reflexivity | reflexivity | repeat split ].
Defined.

(** ** The flat memory: what [UpdateStatus] writes *)

Module FlatFootprint.
Import Flat FlatProofs FlatRefinement.

Lemma setReplacementsCompleted_brk (h h' : Heap) (st st' : NRS.t slice)
    (r : Result.t slice) :
  setReplacementsCompleted h st r = (h', st') -> brk h <= brk h'.
Proof.
  unfold setReplacementsCompleted.
  destruct (negb (isNil (NRS.ReplacementsCompleted st)) && _).
  - destruct (appendIfMissingStr h _ _) as [h1 merged] eqn:E.
    unfold appendIfMissingStr in E.
    apply (appendIfMissingLoop_outside h (NRS.ReplacementsCompleted st)) in E;
      [ | apply Nat.le_refl | apply tracks_refl | apply agreeOutside_refl ].
    destruct E as (Hb & _ & _).
    destruct (isNil _ && _); intros [= <- <-]; exact Hb.
  - destruct (isNil _ && _); intros [= <- <-]; apply Nat.le_refl.
Qed.

(** X13.  [UpdateStatus] writes only into the spare capacity of the array of the
    instance's ReplacementsCompleted and into cells that were free: every
    other cell that was allocated holds what it held, and no cell is given
    back.  When that slice has no spare capacity, no allocated cell is
    written at all. *)
Theorem UpdateStatus_footprint (w : World) (h : Heap)
    (i : NodeRollout.t slice) (r : Result.t slice) :
  let h' := snd (fst (UpdateStatus w h i r)) in
  brk h <= brk h' /\
  (forall a, a < brk h ->
             ~ spare (NRS.ReplacementsCompleted (NodeRollout.Status i)) a ->
             cells h' a = cells h a) /\
  (hcap (headerOf (NRS.ReplacementsCompleted (NodeRollout.Status i)))
   <= hlen (headerOf (NRS.ReplacementsCompleted (NodeRollout.Status i))) ->
   forall a, a < brk h -> cells h' a = cells h a).
Proof.
  cbn zeta.
  destruct (UpdateStatus_memory w h i r) as (w1 & m & e1 & Hm).
  apply mergeStatus_memory in Hm.
  assert (Hmain :
    brk h <= brk (snd (fst (UpdateStatus w h i r))) /\
    agreeOutside h (snd (fst (UpdateStatus w h i r)))
      (NRS.ReplacementsCompleted (NodeRollout.Status i))).
  { destruct Hm as [-> | (st1 & st2 & Ec & E2)].
    - split; [ apply Nat.le_refl | apply agreeOutside_refl ].
    - split; [ eapply setReplacementsCompleted_brk, E2 | ].
      apply setReplacementsCompleted_outside in E2. rewrite Ec in E2.
      exact E2. }
  destruct Hmain as [Hb Ha].
  split; [ exact Hb | split; [ exact Ha | ] ].
  intros Hfull a Hlt. apply Ha; [ exact Hlt | ]. unfold spare. lia.
Qed.

(** X14.  Over arrays that lie apart, the run over the flat memory leaves the
    world and returns the error that the run on the contents of the
    instance and of the result does. *)
Theorem UpdateStatus_flat_as_values (w : World) (h : Heap)
    (i : NodeRollout.t slice) (r : Result.t slice) :
  apart h i r ->
  fst (fst (UpdateStatus w h i r))
  = fst (fst (UpdateStatus w tt (viewInstance h i) (viewResult h r))) /\
  snd (UpdateStatus w h i r)
  = snd (UpdateStatus w tt (viewInstance h i) (viewResult h r)).
Proof.
  intros Hap. rewrite (UpdateStatus_refines w h i r Hap). split; reflexivity.
Qed.

Lemma UpdateStatus_flat_as_values_witness :
  fst (fst (UpdateStatus (acceptingWorld (exampleRollout emptyStatus))
              apartHeap apartInstance apartResult))
  = fst (fst (UpdateStatus (acceptingWorld (exampleRollout emptyStatus)) tt
                (viewInstance apartHeap apartInstance)
                (viewResult apartHeap apartResult))) /\
  snd (UpdateStatus (acceptingWorld (exampleRollout emptyStatus))
         apartHeap apartInstance apartResult)
  = snd (UpdateStatus (acceptingWorld (exampleRollout emptyStatus)) tt
           (viewInstance apartHeap apartInstance)
           (viewResult apartHeap apartResult)).
Proof.
  apply (UpdateStatus_flat_as_values
           (acceptingWorld (exampleRollout emptyStatus)) apartHeap
           apartInstance apartResult).
  unfold apart, separated, clearOf, visible, spare. cbn.
  repeat split; try lia; tauto.
Defined.

Lemma UpdateStatus_footprint_witness :
  cells
    (snd (fst (UpdateStatus (acceptingWorld (exampleRollout emptyStatus))
                 apartHeap
                 (NodeRollout.mk "example"
                    (set_ReplacementsCompleted apartStatus
                       (Some (mkHeader 4 2 2))))
                 apartResult))) 6
  = cells apartHeap 6.
Proof.
  apply (proj2 (proj2 (UpdateStatus_footprint
                         (acceptingWorld (exampleRollout emptyStatus))
                         apartHeap
                         (NodeRollout.mk "example"
                            (set_ReplacementsCompleted apartStatus
                               (Some (mkHeader 4 2 2))))
                         apartResult))).
  - cbn. lia.
  - cbn. lia.
Defined.

End FlatFootprint.

(** ** Witnesses of the further properties *)



Lemma mergeStatus_counts_witness :
  countsAgree
    (snd (fst (mergeStatus (acceptingWorld (exampleRollout runningStatus)) tt
                 (exampleRollout runningStatus) finishing))).
Proof.
  apply (mergeStatus_counts
           (acceptingWorld (exampleRollout runningStatus))
           (fst (fst (fst (mergeStatus
                             (acceptingWorld (exampleRollout runningStatus))
                             tt (exampleRollout runningStatus) finishing))))
           tt tt (exampleRollout runningStatus) finishing).
  - split; reflexivity.
  - reflexivity.
Defined.

Lemma setNodeRolloutCondition_twice_witness :
  setNodeRolloutCondition (setNodeRolloutCondition statusWithA otherReason)
    (NRC.mk ReplacementsCreatedType ConditionTrue 20%Z 21%Z "ReasonB" "later")
  = setNodeRolloutCondition statusWithA otherReason.
Proof.
  apply (setNodeRolloutCondition_twice statusWithA otherReason); reflexivity.
Defined.

(** The run the witnesses use: the phase moves on, the second completed name
    of the result is new, two conditions are applied, and the failed name
    stays. *)
Example finishing_run :
  snd (fst (mergeStatus (acceptingWorld (exampleRollout runningStatus)) tt
              (exampleRollout runningStatus) finishing))
  = NRS.mk "Completed" (Some fourNames) 4
      (Some ["example-master-2"; "example-worker-1"; "example-worker-2"]) 3
      (Some ["example-master-1"]) 1 None
      (Some [NRC.mk ReplacementsCreatedType ConditionTrue 0%Z 1%Z
               "ReplacementsCreated" "";
             NRC.mk ReplacementsInProgressType ConditionFalse 2%Z 3%Z
               "ReplacementsCompleted" ""]).
Proof. reflexivity. Qed.

(** ** The error of a merge *)

Section MergeError.

Context {H S : Type} `{GoSlice H S}.

Lemma setCreatedCondition_passes (w : World) (st : NRS.t S) (r : Result.t S) :
  createdMalformed r = false -> snd (setCreatedCondition w st r) = None.
Proof.
  unfold createdMalformed, setCreatedCondition. intros ->.
  destruct (negb _); [ destruct (createdCondition w r) | ]; reflexivity.
Qed.

Lemma setInProgressCondition_passes (w : World) (st : NRS.t S)
    (r : Result.t S) :
  inProgressMalformed r = false -> snd (setInProgressCondition w st r) = None.
Proof.
  unfold inProgressMalformed, setInProgressCondition. intros ->.
  destruct (negb _); [ destruct (inProgressCondition w r) | ]; reflexivity.
Qed.

(** X1.  The error a merge ends with is decided by the instance and the result
    alone, whatever the clock, the store and the memory: it is the error of
    the first check that fails, in the order ReplacementsCreated conflict,
    CompletionTimestamp conflict, creation error without reason, in-progress
    error without reason, and nil when all four pass.  [UpdateStatus]
    returns that error when there is one, and then hands nothing to the
    store. *)
Theorem mergeStatus_error (w : World) (h : H) (i : NodeRollout.t S)
    (r : Result.t S) :
  snd (mergeStatus w h i r) = firstFailedCheck i r /\
  (forall e, firstFailedCheck i r = Some e ->
             snd (UpdateStatus w h i r) = Some e /\
             sameStore w (fst (fst (UpdateStatus w h i r)))).
Proof.
  assert (Hmerge : snd (mergeStatus w h i r) = firstFailedCheck i r).
  { unfold firstFailedCheck.
    destruct (mergeStatus_prefix w h i r)
      as [(h' & st' & e & Hm & Hc) | (Hc & Ht & h' & st3 & Hm)].
    - revert Hm Hc. unfold mergeStatus, createdConflict, timestampConflict.
      destruct (setPhase_frame (NodeRollout.Status i) r)
        as (Ec & _ & _ & _ & _ & Et & _).
      destruct (negb (isNil (NRS.ReplacementsCreated (NodeRollout.Status i)))
                && negb (isNil (Result.ReplacementsCreated r))) eqn:Ecc.
      + apply andb_true_iff in Ecc. destruct Ecc as [A B].
        apply negb_true_iff in A, B.
        rewrite setReplacementsCreated_conflict by (rewrite ?Ec; assumption).
        intros _ _. reflexivity.
      + destruct (setReplacementsCreated_passes
                    (setPhase (NodeRollout.Status i) r) r) as [st1 E1].
        { rewrite Ec. apply andb_false_iff in Ecc.
          destruct Ecc as [A|A]; apply negb_false_iff in A; auto. }
        rewrite E1. apply setReplacementsCreated_frame in E1.
        destruct E1 as (_ & _ & _ & _ & Et1 & _).
        destruct (setReplacementsCompleted h st1 r) as [h2 st2] eqn:E2.
        apply setReplacementsCompleted_frame in E2.
        destruct E2 as (_ & _ & _ & _ & Et2 & _).
        cbn [orb]. intros _ Htc. apply andb_true_iff in Htc.
        destruct Htc as [A B]. rewrite A, B. cbn [andb].
        rewrite setCompletionTimestamp_conflict;
          [ reflexivity | congruence | exact B ].
    - rewrite Hc, Ht, Hm.
      destruct (setCreatedCondition w st3 r) as [[w4 st4] e4] eqn:E4.
      destruct (createdMalformed r) eqn:Em.
      + rewrite setCreatedCondition_malformed in E4 by exact Em.
        injection E4 as <- <- <-. reflexivity.
      + pose proof (setCreatedCondition_passes w st3 r Em) as Hn.
        rewrite E4 in Hn. cbn in Hn. subst e4.
        destruct (setInProgressCondition w4 st4 r) as [[w5 st5] e5] eqn:E5.
        destruct (inProgressMalformed r) eqn:Ei.
        * rewrite setInProgressCondition_malformed in E5 by exact Ei.
          injection E5 as <- <- <-. reflexivity.
        * pose proof (setInProgressCondition_passes w4 st4 r Ei) as Hn.
          rewrite E5 in Hn. cbn in Hn. subst e5. reflexivity. }
  split; [ exact Hmerge | ].
  intros e He. rewrite He in Hmerge.
  destruct (mergeStatus w h i r) as [[[w1 h1] m] e1] eqn:Em.
  cbn in Hmerge. subst e1.
  rewrite (UpdateStatus_error _ _ _ _ _ _ _ _ Em). cbn.
  split; [ reflexivity | ].
  apply (mergeStatus_world _ _ _ _ _ _ _ _ Em).
Qed.

End MergeError.

Lemma mergeStatus_error_witness :
  snd (UpdateStatus (acceptingWorld (exampleRollout bothSet)) tt
         (exampleRollout bothSet)
         (result_InProgressCondition bothSupplied (Some "error") ""))
  = Some "cannot update ReplacementsCreated, field is immutable once set" /\
  sameStore (acceptingWorld (exampleRollout bothSet))
    (fst (fst (UpdateStatus (acceptingWorld (exampleRollout bothSet)) tt
                 (exampleRollout bothSet)
                 (result_InProgressCondition bothSupplied (Some "error") "")))).
Proof.
  apply (proj2 (mergeStatus_error (acceptingWorld (exampleRollout bothSet)) tt
                  (exampleRollout bothSet)
                  (result_InProgressCondition bothSupplied (Some "error") ""))).
  reflexivity.
Defined.

(** * test/utils/matchers.go: the field path of [WithField] *)

Module MatchersProofs.
Import Matchers.

Lemma splitDot_length (s first tail : string) :
  splitDot s = (first, Some tail) ->
  String.length s = String.length first + 1 + String.length tail.
Proof.
  revert first. induction s as [|c s IH]; intros first; cbn;
    [ discriminate | ].
  destruct (Ascii.eqb c "."%char).
  - intros [= <- <-]. cbn. reflexivity.
  - destruct (splitDot s) as [f t]. intros [= <- ->]. cbn.
    rewrite (IH f eq_refl). reflexivity.
Qed.

Lemma splitDot_empty (s first : string) (rest : option string) :
  splitDot s = (first, rest) -> String.length s = 0 -> rest = None.
Proof. destruct s; cbn; [ intros [= _ <-]; reflexivity | discriminate ]. Qed.

(** [segments] cuts at the first dot where [splitDot] does, and goes on
    behind it. *)
Lemma segments_splitDot (s : string) :
  segments s
  = match splitDot s with
    | (first, None) => (first, [])
    | (first, Some tail) => (first, pieces tail)
    end.
Proof.
  induction s as [|c s IH]; cbn; [ reflexivity | ].
  destruct (Ascii.eqb c "."%char).
  - unfold pieces. destruct (segments s). reflexivity.
  - rewrite IH. destruct (splitDot s) as [f [t|]]; reflexivity.
Qed.

Lemma segments_app (a b : string) :
  dotFree a = true ->
  segments (a ++ b) = ((a ++ fst (segments b))%string, snd (segments b)).
Proof.
  induction a as [|c a IH]; cbn.
  - intros _. destruct (segments b). reflexivity.
  - intros Hf. apply andb_true_iff in Hf. destruct Hf as [Hc Hf].
    apply negb_true_iff in Hc. rewrite Hc, (IH Hf). reflexivity.
Qed.

Lemma string_app_empty (a : string) : (a ++ "")%string = a.
Proof. induction a as [|c a IH]; cbn; [ | rewrite IH ]; reflexivity. Qed.

Lemma segments_joinDots (first : string) (others : list string) :
  dotFree first = true -> forallb dotFree others = true ->
  segments (joinDots first others) = (first, others).
Proof.
  revert first. induction others as [|next rest IH]; intros first Hf Ho.
  - cbn. rewrite <- (string_app_empty first) at 1.
    rewrite (segments_app first "" Hf). cbn.
    rewrite string_app_empty. reflexivity.
  - cbn in Ho. apply andb_true_iff in Ho. destruct Ho as [Hn Hr].
    cbn [joinDots]. rewrite (segments_app first _ Hf).
    cbn. rewrite (IH next Hn Hr). cbn.
    rewrite string_app_empty. reflexivity.
Qed.

(** Every path is its pieces joined by dots, and no piece holds a dot. *)
Lemma joinDots_segments (s : string) :
  joinDots (fst (segments s)) (snd (segments s)) = s /\
  dotFree (fst (segments s)) = true /\
  forallb dotFree (snd (segments s)) = true.
Proof.
  induction s as [|c s (IHj & IHf & IHo)]; cbn; [ auto | ].
  destruct (segments s) as [first others]. cbn in *.
  destruct (Ascii.eqb c "."%char) eqn:Ec; cbn.
  - apply Ascii.eqb_eq in Ec. subst c. rewrite IHj, IHf, IHo. auto.
  - rewrite Ec, IHf, IHo. cbn. split; [ | auto ].
    destruct others; cbn in *; rewrite IHj; reflexivity.
Qed.

Section WithReflection.

Variable V R : Type.
Variable fieldByName : V -> string -> Lookup V.
Variable typeName : V -> string.

Local Abbreviation WithFieldN := (WithFieldN V R fieldByName typeName).
Local Abbreviation WithField := (WithField V R fieldByName typeName).
Local Abbreviation getField := (getField V fieldByName typeName).
Local Abbreviation follow := (follow V R fieldByName typeName).

Lemma WithFieldN_follow (n : nat) :
  forall (field : string) (matcher : Matcher V R) (obj : V),
    String.length field <= n ->
    WithFieldN n field matcher obj = follow (pieces field) matcher obj.
Proof.
  induction n as [|n IH]; intros field matcher obj Hlen.
  - unfold pieces. rewrite segments_splitDot. cbn [Matchers.WithFieldN].
    destruct (splitDot field) as [first rest] eqn:Es.
    rewrite (splitDot_empty field first rest Es) by lia.
    reflexivity.
  - unfold pieces. rewrite segments_splitDot. cbn [Matchers.WithFieldN].
    destruct (splitDot field) as [first [tail|]] eqn:Es; [ | reflexivity ].
    apply splitDot_length in Es.
    cbn [fst snd Matchers.follow]. unfold WithTransform.
    destruct (getField first obj) as [v|msg]; [ | reflexivity ].
    apply IH. lia.
Qed.

(** The recursion of the source: the matcher for the text behind the first
    dot is built first and wrapped in the transform of the first field. *)
Lemma WithField_unfold (field : string) (matcher : Matcher V R) (obj : V) :
  WithField field matcher obj
  = let (first, rest) := splitDot field in
    WithTransform V R (getField first)
      match rest with
      | Some tail => WithField tail matcher
      | None => matcher
      end obj.
Proof.
  unfold Matchers.WithField.
  rewrite WithFieldN_follow by apply Nat.le_refl.
  unfold pieces. rewrite segments_splitDot.
  destruct (splitDot field) as [first [tail|]]; [ | reflexivity ].
  cbn [fst snd Matchers.follow]. unfold WithTransform.
  destruct (getField first obj) as [v|msg]; [ | reflexivity ].
  rewrite WithFieldN_follow by apply Nat.le_refl. reflexivity.
Qed.

(** X15.  On a path of names joined by dots, [WithField] reads the fields one
    after the other, from the object on, and gives the matcher what the last
    one holds.  At the first name the object at hand has no field for, it
    panics with "Object '<type>' does not have a field '<name>'" and the
    matcher is not asked; a panic of the reflect package goes through
    likewise. *)
Theorem WithField_path (first : string) (others : list string)
    (matcher : Matcher V R) (obj : V) :
  dotFree first = true -> forallb dotFree others = true ->
  WithField (joinDots first others) matcher obj
  = follow (first :: others) matcher obj.
Proof.
  intros Hf Ho. unfold Matchers.WithField.
  rewrite WithFieldN_follow by apply Nat.le_refl.
  unfold pieces. rewrite (segments_joinDots first others Hf Ho).
  reflexivity.
Qed.

(** X16.  [WithNodeReplacementSpecField] reads the field Spec and matches what it
    holds with [WithField] on the rest, whatever the rest is; an object
    without a field Spec makes it panic. *)
Theorem WithNodeReplacementSpecField_reads_Spec (field : string)
    (matcher : Matcher V R) (obj : V) :
  WithNodeReplacementSpecField V R fieldByName typeName field matcher obj
  = match fieldByName obj "Spec" with
    | Found v => WithField field matcher v
    | Invalid =>
        Panicked ("Object '" ++ typeName obj
                  ++ "' does not have a field 'Spec'")%string
    | ReflectPanic msg => Panicked msg
    end.
Proof.
  unfold WithNodeReplacementSpecField. rewrite WithField_unfold.
  cbn [splitDot String.append Ascii.eqb Bool.eqb].
  cbn. unfold WithTransform, Matchers.getField.
  destruct (fieldByName obj "Spec"); reflexivity.
Qed.

End WithReflection.

Lemma WithField_path_witness :
  WithField Tree string treeField treeType "Spec.Unschedulable" leafText
    cordonedNode
  = Returned "true".
Proof.
  apply (WithField_path Tree string treeField treeType "Spec"
           ["Unschedulable"] leafText cordonedNode);
    reflexivity.
Defined.

(** A name the object at hand does not have, a path that ends in a dot, and
    a step below a value that is no struct. *)
Example WithField_missing :
  WithField Tree string treeField treeType "Spec.Taints" leafText cordonedNode
  = Panicked "Object 'v1.NodeSpec' does not have a field 'Taints'" /\
  WithField Tree string treeField treeType "Spec." leafText cordonedNode
  = Panicked "Object 'v1.NodeSpec' does not have a field ''" /\
  WithField Tree string treeField treeType "Spec.Unschedulable.Value" leafText
    cordonedNode
  = Panicked "reflect: call of reflect.Value.FieldByName on string Value".
Proof. repeat split. Qed.

Example WithNodeReplacementSpecField_example :
  WithNodeReplacementSpecField Tree string treeField treeType "Unschedulable"
    leafText cordonedNode
  = Returned "true".
Proof. reflexivity. Qed.

End MatchersProofs.

